(** * Smart parking lambda: a shallow embedding of [backend/lambda.py]

    The handler is a sequence of calls to external collaborators (S3,
    Rekognition, two DynamoDB tables, CloudWatch, the clock).  The
    collaborators are modelled by a [World] that the handler threads through
    its calls, and by an [Env] that fixes what the collaborators answer during
    one request (clock readings, recognition results, outages).  Python
    exceptions are the left summand of the result; the world reached when an
    exception is raised is kept, as in Python. *)

From Stdlib Require Import ZArith QArith String Ascii List Lia.
From stdpp Require Import gmap strings list fin_maps pretty.

Close Scope Q_scope.
Open Scope Z_scope.
Open Scope string_scope.

(** ** 1. Configuration *)

Definition TABLE_NAME : string := "ParkingLot".
Definition LOGS_TABLE_NAME : string := "ParkingLogs".
Definition BUCKET_NAME : string := "parking-lot-images-cpc357".
Definition REGION : string := "ap-southeast-1".
Definition MAX_SPOTS : Z := 30.
Definition DEBUG_MODE : bool := true.

(** ** 2. Data *)

(** Bytes are 8-bit integers. *)
Abbreviation bytes := (list Z).

(** An item of the [ParkingLogs] table, as [handle_entry] writes it. *)
Module LogItem.
Record t := mk {
  log_id : string;
  timestamp : string;
  entry_epoch : Z;
  action : string;
  image_url : string
}.
End LogItem.

(** One element of Rekognition's [TextDetections].  [Confidence] is a float
    between 0 and 100; every finite float is a rational and the comparison
    with 70 is exact, so it is a [Q] here. *)
Module TextDetection.
Record t := mk {
  DetectedText : string;
  Type_ : string;
  Confidence : Q
}.
End TextDetection.

(** One element of CloudWatch's [MetricData]. *)
Module Metric.
Record t := mk {
  MetricName : string;
  Value : Z;
  Unit : string
}.
End Metric.

(** The dictionary [api_response] builds. *)
Record Response := {
  statusCode : Z;
  body : string
}.

(** The part of the API Gateway event the handler reads.  A field that is
    [None] is a key that is absent from the event; [headers], when the key is
    there, is a dictionary of strings. *)
Inductive Json := JNull | JStr (s : string).

Record Event := {
  headers : option (gmap string string);
  isBase64Encoded : option bool;
  event_body : option Json
}.

Inductive Exn :=
| KeyError
| TypeError
| ValueError
| BinasciiError
| ZeroDivisionError
| OverflowError
| ClientError (code : string).

(** Every call to a collaborator, in the order the handler makes it. *)
Inductive Call :=
| S3PutObject (Key : string)
| RekognitionDetectText
| TableGetItem
| TablePutItem
| TableUpdateItem
| LogsPutItem (log_id : string)
| LogsGetItem (log_id : string)
| CloudwatchPutMetricData.

(** The collaborators' state.  [table] maps a [lot_id] to the item's
    [available_slots]; [logs_table] maps a [log_id] to its item; [s3] maps an
    object key to its body; [cloudwatch] lists the batches that were accepted;
    [tick] counts the clock readings so far. *)
Record World := {
  table : gmap string Z;
  logs_table : gmap string LogItem.t;
  s3 : gmap string bytes;
  cloudwatch : list (list Metric.t);
  tick : nat;
  calls : list Call
}.

(** What the collaborators answer during one request.  A call that the source
    wraps in [try] may fail ([s3_up], [detect_text], [logs_up], [cw_up]); the
    DynamoDB calls outside a [try] follow the store's semantics on a store
    that is reachable. *)
Record Env := {
  clock : nat -> Z;
  strftime : Z -> string;
  s3_up : bool;
  detect_text : bytes -> option (list TextDetection.t);
  logs_up : bool;
  cw_up : bool
}.

(** ** 3. The effect monad: state and exceptions *)

Definition Eff (A : Type) : Type := World -> (Exn + A) * World.

Definition ret {A} (a : A) : Eff A := fun w => (inr a, w).

Definition raise {A} (e : Exn) : Eff A := fun w => (inl e, w).

Definition bind {A B} (m : Eff A) (k : A -> Eff B) : Eff B :=
  fun w => match m w with
           | (inr a, w') => k a w'
           | (inl e, w') => (inl e, w')
           end.

(** A computation that touches no collaborator: its value, or its exception. *)
Definition lift {A} (r : Exn + A) : Eff A := fun w => (r, w).

(** [try: m except: h]. *)
Definition try_except {A} (m : Eff A) (h : Exn -> Eff A) : Eff A :=
  fun w => match m w with
           | (inr a, w') => (inr a, w')
           | (inl e, w') => h e w'
           end.

Declare Scope eff_scope.
Delimit Scope eff_scope with eff.
Notation "x <- m ;; k" := (bind m (fun x => k))
  (at level 100, m at next level, right associativity) : eff_scope.
Notation "m ;; k" := (bind m (fun _ => k))
  (at level 100, right associativity) : eff_scope.
Open Scope eff_scope.

(** ** 4. The collaborators *)

Definition with_table (f : gmap string Z -> gmap string Z) (w : World) : World :=
  {| table := f (table w); logs_table := logs_table w; s3 := s3 w;
     cloudwatch := cloudwatch w; tick := tick w; calls := calls w |}.

Definition with_logs_table (f : gmap string LogItem.t -> gmap string LogItem.t)
    (w : World) : World :=
  {| table := table w; logs_table := f (logs_table w); s3 := s3 w;
     cloudwatch := cloudwatch w; tick := tick w; calls := calls w |}.

Definition with_s3 (f : gmap string bytes -> gmap string bytes) (w : World) : World :=
  {| table := table w; logs_table := logs_table w; s3 := f (s3 w);
     cloudwatch := cloudwatch w; tick := tick w; calls := calls w |}.

Definition with_cloudwatch (f : list (list Metric.t) -> list (list Metric.t))
    (w : World) : World :=
  {| table := table w; logs_table := logs_table w; s3 := s3 w;
     cloudwatch := f (cloudwatch w); tick := tick w; calls := calls w |}.

Definition with_tick (w : World) : World :=
  {| table := table w; logs_table := logs_table w; s3 := s3 w;
     cloudwatch := cloudwatch w; tick := S (tick w); calls := calls w |}.

Definition with_calls (f : list Call -> list Call) (w : World) : World :=
  {| table := table w; logs_table := logs_table w; s3 := s3 w;
     cloudwatch := cloudwatch w; tick := tick w; calls := f (calls w) |}.

(** Every collaborator records that it was called, also when it fails. *)
Definition log_call (c : Call) : Eff unit :=
  fun w => (inr tt, with_calls (fun cs => (cs ++ [c])%list) w).

Section Collaborators.

Context (env : Env).

(** [int(time.time())]: the next reading of the clock, in whole seconds. *)
Definition time_time : Eff Z :=
  fun w => (inr (clock env (tick w)), with_tick w).

(** [time.strftime("%Y-%m-%d %H:%M:%S")]: the next reading, formatted. *)
Definition time_strftime : Eff string :=
  fun w => (inr (strftime env (clock env (tick w))), with_tick w).

(** [s3.put_object(Bucket=BUCKET_NAME, Key=.., Body=..)]. *)
Definition s3_put_object (Key : string) (Body : bytes) : Eff unit :=
  log_call (S3PutObject Key) ;;
  if s3_up env then fun w => (inr tt, with_s3 (insert Key Body) w)
  else raise (ClientError "ServiceUnavailable").

(** [rekognition.detect_text(Image={'Bytes': ..})['TextDetections']]. *)
Definition rekognition_detect_text (image_bytes : bytes)
    : Eff (list TextDetection.t) :=
  log_call RekognitionDetectText ;;
  match detect_text env image_bytes with
  | Some ds => ret ds
  | None => raise (ClientError "InvalidImageFormatException")
  end.

(** [table.get_item(Key={'lot_id': ..})]: the item's [available_slots] when
    ['Item'] is in the response. *)
Definition table_get_item (lot_id : string) : Eff (option Z) :=
  log_call TableGetItem ;;
  fun w => (inr (table w !! lot_id), w).

(** [table.put_item(Item={'lot_id': .., 'available_slots': ..})]. *)
Definition table_put_item (lot_id : string) (available_slots : Z) : Eff unit :=
  log_call TablePutItem ;;
  fun w => (inr tt, with_table (insert lot_id available_slots) w).

(** [table.update_item] with the expression
    [set available_slots = available_slots + :val]; the result is the updated
    attribute ([ReturnValues="UPDATED_NEW"]).  DynamoDB rejects the expression
    with a [ValidationException] when the item has no [available_slots] to
    read, and then writes nothing. *)
Definition table_update_item (lot_id : string) (val : Z) : Eff Z :=
  log_call TableUpdateItem ;;
  fun w => match table w !! lot_id with
           | Some n => (inr (n + val), with_table (insert lot_id (n + val)) w)
           | None => (inl (ClientError "ValidationException"), w)
           end.

(** [logs_table.put_item(Item=..)]: the item replaces any item of the same
    key. *)
Definition logs_put_item (Item : LogItem.t) : Eff unit :=
  log_call (LogsPutItem (LogItem.log_id Item)) ;;
  fun w => (inr tt, with_logs_table (insert (LogItem.log_id Item) Item) w).

(** [logs_table.get_item(Key={'log_id': ..})], inside a [try]. *)
Definition logs_get_item (log_id : string) : Eff (option LogItem.t) :=
  log_call (LogsGetItem log_id) ;;
  if logs_up env then fun w => (inr (logs_table w !! log_id), w)
  else raise (ClientError "ServiceUnavailable").

(** [cloudwatch.put_metric_data(Namespace=.., MetricData=..)]. *)
Definition cloudwatch_put_metric_data (Namespace : string)
    (MetricData : list Metric.t) : Eff unit :=
  log_call CloudwatchPutMetricData ;;
  if cw_up env then fun w => (inr tt, with_cloudwatch (fun bs => (bs ++ [MetricData])%list) w)
  else raise (ClientError "ServiceUnavailable").

(** ** 5. Monitoring and utilities *)

Definition api_response (code : Z) (message : string) : Response :=
  {| statusCode := code; body := message |}.

Definition send_cloudwatch_data (action plate : string)
    (slots_left duration_mins : Z) : Eff unit :=
  try_except
    (let metric_data := [Metric.mk "AvailableSlots_Demo" slots_left "Count"] in
     let metric_data :=
       if String.eqb action "ENTRY" then
         (metric_data ++ [Metric.mk "DailyCarCount" 1 "Count"])%list
       else if String.eqb action "EXIT" && (0 <? duration_mins)%Z then
         (metric_data ++ [Metric.mk "ParkingDuration" duration_mins "Count"])%list
       else metric_data in
     cloudwatch_put_metric_data "SmartParking" metric_data)
    (fun cw_error => ret tt).

(** ** 6. Core logic *)

Definition image_url_of (image_key : string) : string :=
  "https://" ++ BUCKET_NAME ++ ".s3." ++ REGION ++ ".amazonaws.com/" ++ image_key.

Definition handle_entry (plate image_key : string) : Eff Response :=
  response <- table_get_item "lot1" ;;
  slots <- match response with
           | None => table_put_item "lot1" MAX_SPOTS ;; ret MAX_SPOTS
           | Some available_slots => ret available_slots
           end ;;
  if (slots <=? 0)%Z then ret (api_response 200 "FULL")
  else if negb (String.eqb plate "UNKNOWN") then
    let new_slots := slots - 1 in
    table_update_item "lot1" (-1) ;;
    current_epoch <- time_time ;;
    timestamp <- time_strftime ;;
    logs_put_item (LogItem.mk plate timestamp current_epoch "ENTRY"
                     (image_url_of image_key)) ;;
    send_cloudwatch_data "ENTRY" plate new_slots 0 ;;
    ret (api_response 200 "OPEN_GATE")
  else ret (api_response 200 "DENIED_NO_TEXT").

(** [a / b] on Python integers is a float: the binary64 number nearest to the
    exact quotient, ties to even, and [OverflowError] when that is beyond the
    largest float.  A float is its signed significand (at most 53 bits) and
    its exponent: it stands for [significand * 2 ^ exponent]. *)
Record float := {
  significand : Z;
  exponent : Z
}.

(** The integer nearest to [num / den], ties to even ([0 <= num], [0 < den]). *)
Definition round_half_even (num den : Z) : Z :=
  let q := num / den in
  let r := num mod den in
  if (2 * r <? den)%Z then q
  else if (den <? 2 * r)%Z then q + 1
  else if Z.even q then q else q + 1.

(** The integer part of the binary logarithm of [x / y] ([0 < x], [0 < y]). *)
Definition log2_quotient (x y : Z) : Z :=
  let k := Z.log2 x - Z.log2 y in
  if (0 <=? k)%Z then (if (y * 2 ^ k <=? x)%Z then k else k - 1)
  else (if (y <=? x * 2 ^ (- k))%Z then k else k - 1).

(** [int.__truediv__]: 53 bits of the quotient are kept (fewer below
    [2 ^ -1022], where the exponent stays at -1074). *)
Definition long_true_divide (a b : Z) : Exn + float :=
  if (b =? 0)%Z then inl ZeroDivisionError
  else if (a =? 0)%Z then inr {| significand := 0; exponent := 0 |}
  else
    let x := Z.abs a in
    let y := Z.abs b in
    let e := Z.max (log2_quotient x y - 52) (-1074) in
    let m := if (0 <=? e)%Z then round_half_even x (y * 2 ^ e)
             else round_half_even (x * 2 ^ (- e)) y in
    if (2 ^ 1024 <=? m * 2 ^ e)%Z then inl OverflowError
    else inr {| significand := Z.sgn a * Z.sgn b * m; exponent := e |}.

(** [int(f)] on a float: the integer part, toward zero. *)
Definition int_of_float (f : float) : Z :=
  if (0 <=? exponent f)%Z then significand f * 2 ^ exponent f
  else Z.quot (significand f) (2 ^ (- exponent f)).

(** What lines 165-166 leave in [duration_minutes] for a duration in seconds:
    [int(duration_seconds / 60)], or the initial 0 when the division raises
    and the [except] clause of line 169 takes over. *)
Definition duration_minutes_of (duration_seconds : Z) : Z :=
  match long_true_divide duration_seconds 60 with
  | inr quotient => int_of_float quotient
  | inl _ => 0
  end.

(** Step 2 of [handle_exit] (lines 155-170): the value of [duration_minutes]
    when the metrics are pushed. *)
Definition parking_duration (plate : string) : Eff Z :=
  if negb (String.eqb plate "UNKNOWN") then
    try_except
      (car_record <- logs_get_item plate ;;
       match car_record with
       | Some Item =>
           let entry_time := LogItem.entry_epoch Item in
           exit_time <- time_time ;;
           let duration_seconds := exit_time - entry_time in
           quotient <- lift (long_true_divide duration_seconds 60) ;;
           ret (int_of_float quotient)
       | None => ret 0
       end)
      (fun e => ret 0)
  else ret 0.

Definition handle_exit (plate : string) : Eff Response :=
  new_slots <- table_update_item "lot1" 1 ;;
  duration_minutes <- parking_duration plate ;;
  send_cloudwatch_data "EXIT" plate new_slots duration_minutes ;;
  ret (api_response 200 "EXIT_SUCCESS").

(** ** 7. The main handler *)

(** [base64.b64decode] without validation, as CPython computes it: a string
    must be ASCII, then [binascii.a2b_base64] walks the characters, skips those
    outside the alphabet, stops at the padding that completes a quad, and
    rejects what ends inside a quad. *)
Definition table_a2b_base64 (c : ascii) : option Z :=
  let n := Z.of_N (N_of_ascii c) in
  if (65 <=? n)%Z && (n <=? 90)%Z then Some (n - 65)
  else if (97 <=? n)%Z && (n <=? 122)%Z then Some (n - 71)
  else if (48 <=? n)%Z && (n <=? 57)%Z then Some (n + 4)
  else if (n =? 43)%Z then Some 62
  else if (n =? 47)%Z then Some 63
  else None.

Fixpoint a2b_base64 (ascii_data : string) (quad_pos leftchar pads : Z)
    (bin_data : bytes) : Exn + bytes :=
  match ascii_data with
  | EmptyString => if (quad_pos =? 0)%Z then inr bin_data else inl BinasciiError
  | String this_ch rest =>
      if Ascii.eqb this_ch "="%char then
        if (2 <=? quad_pos)%Z then
          if (4 <=? quad_pos + (pads + 1))%Z then inr bin_data
          else a2b_base64 rest quad_pos leftchar (pads + 1) bin_data
        else a2b_base64 rest quad_pos leftchar pads bin_data
      else
        match table_a2b_base64 this_ch with
        | None => a2b_base64 rest quad_pos leftchar pads bin_data
        | Some this_ch =>
            if (quad_pos =? 0)%Z then a2b_base64 rest 1 this_ch 0 bin_data
            else if (quad_pos =? 1)%Z then
              a2b_base64 rest 2 (Z.land this_ch 15) 0
                (bin_data ++ [Z.lor (Z.shiftl leftchar 2) (Z.shiftr this_ch 4)])%list
            else if (quad_pos =? 2)%Z then
              a2b_base64 rest 3 (Z.land this_ch 3) 0
                (bin_data ++ [Z.lor (Z.shiftl leftchar 4) (Z.shiftr this_ch 2)])%list
            else
              a2b_base64 rest 0 0 0
                (bin_data ++ [Z.lor (Z.shiftl leftchar 6) this_ch])%list
        end
  end.

Fixpoint isascii (s : string) : bool :=
  match s with
  | EmptyString => true
  | String c rest => (N_of_ascii c <? 128)%N && isascii rest
  end.

Definition b64decode (s : Json) : Exn + bytes :=
  match s with
  | JNull => inl TypeError
  | JStr s => if isascii s then a2b_base64 s 0 0 0 [] else inl ValueError
  end.

(** Step B (lines 44-54): what the [try] block leaves in [image_bytes], or
    the exception its [except] clause catches. *)
Definition decode_image (event : Event) : Exn + bytes :=
  match event_body event with
  | None => inl KeyError
  | Some body =>
      if default false (isBase64Encoded event) then b64decode body
      else b64decode body
  end.

(** [str.lower] on the ASCII letters. *)
Definition lower_char (c : ascii) : ascii :=
  let n := N_of_ascii c in
  if (65 <=? n)%N && (n <=? 90)%N then ascii_of_N (n + 32) else c.

Fixpoint lower (s : string) : string :=
  match s with
  | EmptyString => EmptyString
  | String c rest => String (lower_char c) (lower rest)
  end.

(** Truth value of a [bytes] object. *)
Definition nonempty (b : bytes) : bool :=
  match b with
  | [] => false
  | _ :: _ => true
  end.

(** Step C (lines 56-68): the value of [filename] after the optional upload. *)
Definition debug_storage (action : string) (image_bytes : bytes) : Eff string :=
  if DEBUG_MODE && nonempty image_bytes then
    now <- time_time ;;
    let filename := lower action ++ "_" ++ pretty now ++ ".jpg" in
    try_except (s3_put_object filename image_bytes) (fun e => ret tt) ;;
    ret filename
  else ret "error.jpg".

(** The filter of line 77. *)
Definition high_confidence_line (item : TextDetection.t) : bool :=
  String.eqb (TextDetection.Type_ item) "LINE"
  && negb (Qle_bool (TextDetection.Confidence item) (70 # 1)).

(** Step D (lines 70-80): the value of [detected_text] after recognition. *)
Definition ocr_processing (image_bytes : bytes) : Eff (list string) :=
  if nonempty image_bytes then
    try_except
      (TextDetections <- rekognition_detect_text image_bytes ;;
       ret (map TextDetection.DetectedText
              (List.filter high_confidence_line TextDetections)))
      (fun e => ret [])
  else ret [].

(** Line 83. *)
Definition plate_read_of (detected_text : list string) : string :=
  match detected_text with
  | first :: _ => first
  | [] => "UNKNOWN"
  end.

(** [headers.get('x-parking-action', headers.get('X-Parking-Action', 'ENTRY'))]
    on [event.get('headers', {})]. *)
Definition action_of (event : Event) : string :=
  let headers := default ∅ (headers event) in
  default (default "ENTRY" (headers !! "X-Parking-Action"))
    (headers !! "x-parking-action").

Definition lambda_handler (event : Event) : Eff Response :=
  let action := action_of event in
  match decode_image event with
  | inl e => ret (api_response 400 "IMAGE_DECODE_ERROR")
  | inr image_bytes =>
      filename <- debug_storage action image_bytes ;;
      detected_text <- ocr_processing image_bytes ;;
      let plate_read := plate_read_of detected_text in
      if String.eqb action "ENTRY" then handle_entry plate_read filename
      else if String.eqb action "EXIT" then handle_exit plate_read
      else ret (api_response 400 "INVALID_ACTION")
  end.

End Collaborators.

(** ** 8. Sequential executions *)

(** [available_slots] as [handle_entry] sees it: the stored value, or the
    value it initialises an absent record to. *)
Definition slots_seen (w : World) : Z := default MAX_SPOTS (table w !! "lot1").

(** The key step C stores the image under: the action in lower case and the
    clock reading of line 59. *)
Definition filename_of (env : Env) (action : string) (w : World) : string :=
  lower action ++ "_" ++ pretty (clock env (tick w)) ++ ".jpg".

(** A world before any request: no occupancy record yet (it is created
    lazily), or the record as it is initialised. *)
Definition initial (w : World) : Prop :=
  table w !! "lot1" = None \/ table w !! "lot1" = Some MAX_SPOTS.

(** One call of a core function, or one whole request, with any arguments and
    any behaviour of the collaborators; the world is the one the call leaves,
    also when it raises. *)
Inductive step (w : World) : World -> Prop :=
| step_entry env plate image_key :
    step w (snd (handle_entry env plate image_key w))
| step_exit env plate :
    step w (snd (handle_exit env plate w))
| step_request env event :
    step w (snd (lambda_handler env event w)).

Inductive reachable : World -> Prop :=
| reachable_initial w : initial w -> reachable w
| reachable_step w w' : reachable w -> step w w' -> reachable w'.

Definition slots_in_range (w : World) : Prop :=
  forall n, table w !! "lot1" = Some n -> 0 <= n <= MAX_SPOTS.

Definition slots_nonneg (w : World) : Prop :=
  forall n, table w !! "lot1" = Some n -> 0 <= n.

(** ** 9. Text recognition, as the specification words it *)

(** A detection survives the filter. *)
Definition confident_line (item : TextDetection.t) : Prop :=
  TextDetection.Type_ item = "LINE" /\ (70 # 1 < TextDetection.Confidence item)%Q.

(** [item] is the first detection of [ds] that survives the filter. *)
Definition first_confident_line (ds : list TextDetection.t)
    (item : TextDetection.t) : Prop :=
  exists before after,
    ds = (before ++ item :: after)%list
    /\ confident_line item
    /\ forall other, In other before -> ~ confident_line other.

(** ** 10. Sample requests, worlds and collaborators *)

Definition world_of (lot : gmap string Z) (sessions : gmap string LogItem.t) : World :=
  {| table := lot; logs_table := sessions; s3 := ∅; cloudwatch := [];
     tick := 0; calls := [] |}.

(** Nothing stored yet. *)
Definition fresh_world : World := world_of ∅ ∅.

(** The lot with [n] free slots and no session. *)
Definition lot_with (n : Z) : World := world_of {[ "lot1" := n ]} ∅.

(** The lot with [n] free slots and one car that entered at [epoch]. *)
Definition lot_with_car (n : Z) (plate : string) (epoch : Z) : World :=
  world_of {[ "lot1" := n ]}
    {[ plate := LogItem.mk plate "2024-05-01 08:00:00" epoch "ENTRY"
                  (image_url_of "entry_0.jpg") ]}.

(** Every collaborator answers; the clock reads [now] during the whole
    request; Rekognition returns [ds]. *)
Definition env_at (now : Z) (ds : list TextDetection.t) : Env :=
  {| clock := fun _ => now;
     strftime := fun _ => "2024-05-01 08:00:00";
     s3_up := true;
     detect_text := fun _ => Some ds;
     logs_up := true;
     cw_up := true |}.

(** A request with the action in the lower-case header and a text body. *)
Definition request (action : string) (body : string) : Event :=
  {| headers := Some {[ "x-parking-action" := action ]};
     isBase64Encoded := Some true;
     event_body := Some (JStr body) |}.

(** A request without a body field. *)
Definition request_without_body (action : string) : Event :=
  {| headers := Some {[ "x-parking-action" := action ]};
     isBase64Encoded := None;
     event_body := None |}.

Definition sample_detections : list TextDetection.t :=
  [ TextDetection.mk "ABC" "WORD" (99 # 1);
    TextDetection.mk "PARKING" "LINE" (70 # 1);
    TextDetection.mk "ABC123" "LINE" (701 # 10);
    TextDetection.mk "XYZ789" "LINE" (99 # 1) ].

(** ** 10a. Sequences of calls and what they answer *)

(** One invocation: a core function called directly, or a whole request. *)
Inductive Op :=
| OpEntry (env : Env) (plate image_key : string)
| OpExit (env : Env) (plate : string)
| OpRequest (env : Env) (event : Event).

Definition run_op (op : Op) : Eff Response :=
  match op with
  | OpEntry env plate image_key => handle_entry env plate image_key
  | OpExit env plate => handle_exit env plate
  | OpRequest env event => lambda_handler env event
  end.

(** Invocations are independent: each starts in the world the one before it
    left, whether that one returned or raised. *)
Fixpoint run_ops (ops : list Op) (w : World) : list (Exn + Response) * World :=
  match ops with
  | [] => ([], w)
  | op :: rest =>
      let (result, w1) := run_op op w in
      let (results, w2) := run_ops rest w1 in
      (result :: results, w2)
  end.

(** The invocation answered with this message. *)
Definition answered (message : string) (result : Exn + Response) : bool :=
  match result with
  | inr response => String.eqb (body response) message
  | inl _ => false
  end.

Definition count_answered (message : string) (results : list (Exn + Response)) : Z :=
  Z.of_nat (length (List.filter (answered message) results)).

(** A direct ENTRY with a plate that was read. *)
Definition recognised_entry (op : Op) : Prop :=
  match op with
  | OpEntry _ plate _ => plate <> "UNKNOWN"
  | _ => False
  end.

(** The same collaborators, with the outages of S3 and CloudWatch chosen. *)
Definition with_outages (env : Env) (s3_ok cw_ok : bool) : Env :=
  {| clock := clock env; strftime := strftime env; s3_up := s3_ok;
     detect_text := detect_text env; logs_up := logs_up env; cw_up := cw_ok |}.

(** The same event, with the [isBase64Encoded] key set or removed. *)
Definition with_isBase64Encoded (flag : option bool) (event : Event) : Event :=
  {| headers := headers event; isBase64Encoded := flag;
     event_body := event_body event |}.

(** Every session record is filed under its own plate, which is not
    "UNKNOWN", says "ENTRY" and points into the bucket. *)
Definition sessions_well_formed (w : World) : Prop :=
  forall plate Item,
    logs_table w !! plate = Some Item ->
    LogItem.log_id Item = plate
    /\ plate <> "UNKNOWN"
    /\ LogItem.action Item = "ENTRY"
    /\ exists image_key, LogItem.image_url Item = image_url_of image_key.

(** A request with the given header map and a text body. *)
Definition request_with_headers (h : gmap string string) (body : string) : Event :=
  {| headers := Some h; isBase64Encoded := Some true;
     event_body := Some (JStr body) |}.

(** A request without a [headers] key. *)
Definition request_without_headers (body : string) : Event :=
  {| headers := None; isBase64Encoded := Some true;
     event_body := Some (JStr body) |}.

(** The collaborators an invocation runs against. *)
Definition op_env (op : Op) : Env :=
  match op with
  | OpEntry env _ _ => env
  | OpExit env _ => env
  | OpRequest env _ => env
  end.

(** The sum of the values CloudWatch accepted under a metric name. *)
Definition metric_total (name : string) (batches : list (list Metric.t)) : Z :=
  fold_right Z.add 0
    (map Metric.Value
       (List.filter (fun m => String.eqb (Metric.MetricName m) name) (concat batches))).

(** ** 11. Running the monad *)

Ltac run :=
  unfold lambda_handler, handle_entry, handle_exit, parking_duration,
    send_cloudwatch_data, debug_storage, ocr_processing,
    cloudwatch_put_metric_data, logs_get_item, logs_put_item,
    table_update_item, table_put_item, table_get_item,
    rekognition_detect_text, s3_put_object, time_strftime, time_time,
    try_except, bind, raise, ret, lift, log_call; simpl.

Ltac finish := eexists; split; [reflexivity | simpl; auto].

(** The monad laws, pointwise. *)
Lemma bind_ret_l {A B} (a : A) (k : A -> Eff B) (w : World) :
  bind (ret a) k w = k a w.
Proof. reflexivity. Qed.

Lemma bind_ret_r {A} (m : Eff A) (w : World) : bind m ret w = m w.
Proof. unfold bind, ret. destruct (m w) as [[e|a] w']; reflexivity. Qed.

Lemma bind_assoc {A B C} (m : Eff A) (k : A -> Eff B) (h : B -> Eff C) (w : World) :
  bind (bind m k) h w = bind m (fun a => bind (k a) h) w.
Proof. unfold bind. destruct (m w) as [[e|a] w']; reflexivity. Qed.

(** An exception skips the rest and keeps the world it was raised in; [try]
    hands it to the handler. *)
Lemma bind_raise {A B} (e : Exn) (k : A -> Eff B) (w : World) :
  bind (raise e) k w = (inl e, w).
Proof. reflexivity. Qed.

Lemma try_except_raise {A} (e : Exn) (h : Exn -> Eff A) (w : World) :
  try_except (raise e) h w = h e w.
Proof. reflexivity. Qed.

(** The decoder on a padded, an unpadded and an out-of-alphabet body. *)
Example b64decode_hello : b64decode (JStr "aGVsbG8=") = inr [104; 101; 108; 108; 111].
Proof. reflexivity. Qed.

Example b64decode_incorrect_padding : b64decode (JStr "aGVsbG8") = inl BinasciiError.
Proof. reflexivity. Qed.

Example b64decode_skips_other_characters : b64decode (JStr "aGV sb-G8=!") = inr [104; 101; 108; 108; 111].
Proof. reflexivity. Qed.

Lemma eqb_unknown (plate : string) :
  plate <> "UNKNOWN" -> String.eqb plate "UNKNOWN" = false.
Proof. intros H. now apply String.eqb_neq. Qed.

Lemma leb_pos (n : Z) : 0 < n -> (n <=? 0)%Z = false.
Proof. intros H. apply Z.leb_gt. exact H. Qed.

Lemma leb_nonpos (n : Z) : n <= 0 -> (n <=? 0)%Z = true.
Proof. intros H. apply Z.leb_le. exact H. Qed.

(** Rounding to nearest moves a quotient by at most one half. *)
Lemma round_half_even_near (num den : Z) :
  0 < den ->
  2 * num - den <= 2 * den * round_half_even num den <= 2 * num + den.
Proof.
  intros Hden. unfold round_half_even.
  pose proof (Z.div_mod num den ltac:(lia)) as Hdiv.
  pose proof (Z.mod_pos_bound num den Hden) as Hmod.
  set (q := num / den) in *. set (r := num mod den) in *.
  destruct (Z.ltb_spec (2 * r) den); [nia|].
  destruct (Z.ltb_spec den (2 * r)); [nia|].
  destruct (Z.even q); nia.
Qed.

(** With at least five bits after the binary point, rounding a quotient by 60
    keeps its integer part. *)
Lemma rounded_quotient_floor (x n : Z) :
  0 <= x -> 5 <= n ->
  round_half_even (x * 2 ^ n) 60 / 2 ^ n = x / 60.
Proof.
  intros Hx Hn.
  assert (32 <= 2 ^ n) as Hpow.
  { change 32 with (2 ^ 5). apply Z.pow_le_mono_r; lia. }
  pose proof (round_half_even_near (x * 2 ^ n) 60 ltac:(lia)) as Hnear.
  pose proof (Z.div_mod x 60 ltac:(lia)) as Hdiv.
  pose proof (Z.mod_pos_bound x 60 ltac:(lia)) as Hmod.
  set (P := 2 ^ n) in *. set (m := round_half_even (x * P) 60) in *.
  set (q := x / 60) in *. set (r := x mod 60) in *.
  symmetry. apply (Z.div_unique m P q (m - q * P)); [|lia].
  left. nia.
Qed.

Lemma log2_quotient_60 (x : Z) :
  0 < x < 60 * 2 ^ 48 -> -6 <= log2_quotient x 60 <= 47.
Proof.
  intros Hx. unfold log2_quotient. change (Z.log2 60) with 5.
  assert (0 <= Z.log2 x < 54) as Hlog.
  { split; [apply Z.log2_nonneg|]. apply Z.log2_lt_pow2; lia. }
  destruct (Z.leb_spec 0 (Z.log2 x - 5)) as [Hk|Hk].
  - destruct (Z.leb_spec (60 * 2 ^ (Z.log2 x - 5)) x) as [Hle|_]; [|lia].
    assert (Z.log2 x - 5 < 48); [|lia].
    destruct (Z.lt_ge_cases (Z.log2 x - 5) 48) as [|Hge]; [assumption|].
    assert (2 ^ 48 <= 2 ^ (Z.log2 x - 5)) by (apply Z.pow_le_mono_r; lia). lia.
  - destruct (Z.leb_spec 60 (x * 2 ^ (- (Z.log2 x - 5)))); lia.
Qed.

(** Below 60 * 2^48 seconds in absolute value the float quotient has at least
    five bits after the binary point, and [int(d / 60)] is the exact quotient
    truncated toward zero. *)
Lemma int_of_true_divide_60 (a : Z) :
  Z.abs a < 60 * 2 ^ 48 ->
  exists f, long_true_divide a 60 = inr f /\ int_of_float f = Z.quot a 60.
Proof.
  intros Ha. unfold long_true_divide. change (60 =? 0)%Z with false. cbv iota.
  destruct (Z.eqb_spec a 0) as [->|Hnz].
  { eexists. split; reflexivity. }
  change (Z.abs 60) with 60. change (Z.sgn 60) with 1.
  pose proof (log2_quotient_60 (Z.abs a) ltac:(lia)) as Hlog.
  set (fl := log2_quotient (Z.abs a) 60) in *.
  rewrite Z.max_l by lia.
  destruct (Z.leb_spec 0 (fl - 52)) as [|_]; [lia|].
  rewrite (Z.pow_neg_r 2 (fl - 52)) by lia. rewrite Z.mul_0_r.
  change (2 ^ 1024 <=? 0)%Z with false. cbv iota.
  eexists. split; [reflexivity|].
  unfold int_of_float. simpl.
  destruct (Z.leb_spec 0 (fl - 52)) as [|_]; [lia|].
  pose proof (rounded_quotient_floor (Z.abs a) (- (fl - 52)) ltac:(lia) ltac:(lia))
    as Hfloor.
  set (m := round_half_even (Z.abs a * 2 ^ (- (fl - 52))) 60) in *.
  assert (0 < 2 ^ (- (fl - 52))) as Hpos by (apply Z.pow_pos_nonneg; lia).
  assert (0 <= m) as Hm.
  { pose proof (round_half_even_near (Z.abs a * 2 ^ (- (fl - 52))) 60 ltac:(lia)).
    subst m. nia. }
  destruct (Z.abs_spec a) as [[Hnonneg Habs]|[Hneg Habs]]; rewrite Habs in *.
  - replace (Z.sgn a * 1 * m) with m by (replace (Z.sgn a) with 1 by lia; lia).
    rewrite Z.quot_div_nonneg by lia. rewrite Hfloor.
    symmetry. apply Z.quot_div_nonneg; lia.
  - replace (Z.sgn a * 1 * m) with (- m)
      by (replace (Z.sgn a) with (-1) by lia; lia).
    rewrite Z.quot_opp_l by lia. rewrite Z.quot_div_nonneg by lia. rewrite Hfloor.
    rewrite <- Z.quot_div_nonneg by lia.
    rewrite <- Z.quot_opp_l by lia. f_equal. lia.
Qed.

Lemma duration_minutes_of_exact (duration_seconds : Z) :
  Z.abs duration_seconds < 60 * 2 ^ 48 ->
  duration_minutes_of duration_seconds = Z.quot duration_seconds 60.
Proof.
  intros Hbound. unfold duration_minutes_of.
  destruct (int_of_true_divide_60 duration_seconds Hbound) as (f & -> & Hint).
  exact Hint.
Qed.

(** The bound is sharp, and the values are those of CPython: two minutes and
    five seconds; half a minute before the entry; the first difference whose
    quotient rounds up to the next integer; a difference of 6e16 seconds; a
    quotient beyond the largest float, where the division raises. *)
Example duration_minutes_of_values :
  duration_minutes_of 125 = 2
  /\ duration_minutes_of (-30) = 0
  /\ duration_minutes_of (60 * 2 ^ 48 - 1) = 2 ^ 48 - 1
  /\ duration_minutes_of (60 * 2 ^ 48 + 59) = 2 ^ 48 + 1
  /\ duration_minutes_of 59999999999999999 = 1000000000000000
  /\ duration_minutes_of (-854485568428262460) = -14241426140471040
  /\ long_true_divide (60 * 2 ^ 1024) 60 = inl OverflowError
  /\ duration_minutes_of (60 * 2 ^ 1024) = 0.
Proof. vm_compute. repeat split. Qed.

(** The division is in the [try] of line 158: it never leaves
    [parking_duration]. *)
Lemma lift_true_divide_caught (d : Z) (w : World) :
  (let (s, w') :=
     match long_true_divide d 60 with
     | inl e => (inl e, w)
     | inr a => (inr (int_of_float a), w)
     end in
   match s with
   | inl _ => (inr 0, w')
   | inr a => (@inr Exn Z a, w')
   end) = (inr (duration_minutes_of d), w).
Proof. unfold duration_minutes_of. destruct (long_true_divide d 60); reflexivity. Qed.

Lemma high_confidence_line_spec (item : TextDetection.t) :
  high_confidence_line item = true <-> confident_line item.
Proof.
  unfold high_confidence_line, confident_line.
  rewrite andb_true_iff, String.eqb_eq, negb_true_iff.
  split; intros [Hty Hc]; split; try exact Hty.
  - apply Qnot_le_lt. intros Hle. apply Qle_bool_iff in Hle. congruence.
  - destruct (Qle_bool _ _) eqn:E; [|reflexivity].
    apply Qle_bool_iff in E. exfalso. exact (Qlt_not_le _ _ Hc E).
Qed.

(** The head of the filtered list is the first survivor. *)
Lemma filter_first (ds : list TextDetection.t) (item : TextDetection.t) :
  first_confident_line ds item ->
  exists rest, List.filter high_confidence_line ds = item :: rest.
Proof.
  intros (before & after & -> & Hitem & Hbefore).
  induction before as [|d before IH]; simpl.
  - apply high_confidence_line_spec in Hitem. rewrite Hitem. eauto.
  - destruct (high_confidence_line d) eqn:E.
    + apply high_confidence_line_spec in E.
      exfalso. apply (Hbefore d); [now left | exact E].
    + apply IH. intros other Hin. apply Hbefore. now right.
Qed.

Lemma filter_none (ds : list TextDetection.t) :
  (forall item, In item ds -> ~ confident_line item) ->
  List.filter high_confidence_line ds = [].
Proof.
  induction ds as [|d ds IH]; intros Hall; simpl; [reflexivity|].
  destruct (high_confidence_line d) eqn:E.
  - apply high_confidence_line_spec in E.
    exfalso. apply (Hall d); [now left | exact E].
  - apply IH. intros item Hin. apply Hall. now right.
Qed.

(** ** 12. Shared facts about the handlers *)

(** What [handle_entry] answers and where it leaves the counter, in every
    case. *)
Lemma handle_entry_cases env plate image_key w :
  exists w',
    handle_entry env plate image_key w =
      (inr (api_response 200
              (if (slots_seen w <=? 0)%Z then "FULL"
               else if String.eqb plate "UNKNOWN" then "DENIED_NO_TEXT"
               else "OPEN_GATE")), w')
    /\ table w' !! "lot1" =
         Some (if (slots_seen w <=? 0)%Z || String.eqb plate "UNKNOWN"
               then slots_seen w else slots_seen w - 1).
Proof.
  unfold slots_seen. run.
  destruct (table w !! "lot1") as [n|] eqn:Hn; simpl.
  - destruct (n <=? 0)%Z; simpl; [finish|].
    destruct (String.eqb plate "UNKNOWN"); simpl; [finish|].
    rewrite Hn. destruct (cw_up env); simpl; finish;
      apply lookup_insert_eq.
  - destruct (String.eqb plate "UNKNOWN"); simpl.
    + finish. apply lookup_insert_eq.
    + rewrite lookup_insert_eq. destruct (cw_up env); simpl; finish;
        apply lookup_insert_eq.
Qed.

(** [handle_exit] on a stored counter. *)
Lemma handle_exit_stored env plate w n :
  table w !! "lot1" = Some n ->
  exists w',
    handle_exit env plate w = (inr (api_response 200 "EXIT_SUCCESS"), w')
    /\ table w' = <["lot1" := n + 1]> (table w)
    /\ logs_table w' = logs_table w
    /\ s3 w' = s3 w.
Proof.
  intros Hn. run. rewrite Hn.
  destruct (String.eqb plate "UNKNOWN"); simpl.
  - destruct (cw_up env); simpl; finish.
  - destruct (logs_up env); simpl.
    + destruct (logs_table w !! plate) as [item|]; simpl;
        rewrite ?lift_true_divide_caught;
        destruct (cw_up env); simpl; finish.
    + destruct (cw_up env); simpl; finish.
Qed.

(** [handle_exit] before any record was stored: the update expression reads an
    attribute that does not exist, and the exception leaves the handler. *)
Lemma handle_exit_absent env plate w :
  table w !! "lot1" = None ->
  exists w',
    handle_exit env plate w = (inl (ClientError "ValidationException"), w')
    /\ table w' = table w
    /\ logs_table w' = logs_table w.
Proof. intros Hn. run. rewrite Hn. finish. Qed.

(** Step C touches the bucket and nothing else. *)
Lemma debug_storage_frame env action image_bytes w :
  exists filename w',
    debug_storage env action image_bytes w = (inr filename, w')
    /\ table w' = table w
    /\ logs_table w' = logs_table w
    /\ cloudwatch w' = cloudwatch w
    /\ s3 w' =
         (if nonempty image_bytes && s3_up env
          then <[filename_of env action w := image_bytes]> (s3 w)
          else s3 w)
    /\ calls w' =
         (calls w ++
          if nonempty image_bytes then [S3PutObject (filename_of env action w)]
          else [])%list.
Proof.
  unfold filename_of. run. destruct image_bytes as [|b bs]; simpl.
  - eexists _, _. split; [reflexivity|]. simpl. rewrite app_nil_r. auto.
  - destruct (s3_up env); simpl; eexists _, _; (split; [reflexivity|]); simpl;
      repeat split; reflexivity.
Qed.

(** Step D touches no store. *)
Lemma ocr_processing_frame env image_bytes w :
  exists detected_text w',
    ocr_processing env image_bytes w = (inr detected_text, w')
    /\ table w' = table w
    /\ logs_table w' = logs_table w
    /\ cloudwatch w' = cloudwatch w
    /\ s3 w' = s3 w
    /\ calls w' =
         (calls w ++ if nonempty image_bytes then [RekognitionDetectText] else [])%list.
Proof.
  run. destruct image_bytes as [|b bs]; simpl.
  - eexists _, _. split; [reflexivity|]. simpl. rewrite app_nil_r. auto.
  - destruct (detect_text env (b :: bs)); simpl;
      eexists _, _; (split; [reflexivity|]); simpl; repeat split; reflexivity.
Qed.

(** Once the body is decoded, steps C and D run, touch neither table nor
    CloudWatch, and the action decides which core function finishes the
    request. *)
Lemma lambda_handler_decoded env event image_bytes w :
  decode_image event = inr image_bytes ->
  exists filename detected_text w1,
    lambda_handler env event w =
      (if String.eqb (action_of event) "ENTRY"
       then handle_entry env (plate_read_of detected_text) filename w1
       else if String.eqb (action_of event) "EXIT"
       then handle_exit env (plate_read_of detected_text) w1
       else (inr (api_response 400 "INVALID_ACTION"), w1))
    /\ table w1 = table w
    /\ logs_table w1 = logs_table w
    /\ cloudwatch w1 = cloudwatch w
    /\ s3 w1 =
         (if nonempty image_bytes && s3_up env
          then <[filename_of env (action_of event) w := image_bytes]> (s3 w)
          else s3 w)
    /\ calls w1 =
         (calls w ++
          if nonempty image_bytes
          then [S3PutObject (filename_of env (action_of event) w);
                RekognitionDetectText]
          else [])%list.
Proof.
  intros Hdecode. unfold lambda_handler. rewrite Hdecode. unfold bind.
  destruct (debug_storage_frame env (action_of event) image_bytes w)
    as (filename & w0 & -> & Ht0 & Hl0 & Hc0 & Hs0 & Hcalls0).
  destruct (ocr_processing_frame env image_bytes w0)
    as (detected_text & w1 & -> & Ht1 & Hl1 & Hc1 & Hs1 & Hcalls1).
  exists filename, detected_text, w1. split.
  - destruct (String.eqb (action_of event) "ENTRY"); [reflexivity|].
    destruct (String.eqb (action_of event) "EXIT"); reflexivity.
  - rewrite Ht1, Hl1, Hc1, Hs1, Hcalls1, Hcalls0. repeat split; try assumption.
    rewrite <- app_assoc. destruct (nonempty image_bytes); reflexivity.
Qed.

(** ** 13. The entry handler *)

(** C1: an ENTRY with a recognised plate and a free slot (the stored counter is
    positive, or the record is absent and is initialised to [MAX_SPOTS]) takes
    exactly one slot, writes the session record of that plate over any earlier
    one, with [entry_epoch] the clock reading of the request, action "ENTRY"
    and the image URL built from the image key, pushes the entry metrics when
    CloudWatch answers, and returns 200 "OPEN_GATE". *)
Theorem handle_entry_open_gate env plate image_key w :
  plate <> "UNKNOWN" ->
  0 < slots_seen w ->
  let request_time := clock env (tick w) in
  let session :=
    {| LogItem.log_id := plate;
       LogItem.timestamp := strftime env (clock env (S (tick w)));
       LogItem.entry_epoch := request_time;
       LogItem.action := "ENTRY";
       LogItem.image_url :=
         "https://parking-lot-images-cpc357.s3.ap-southeast-1.amazonaws.com/"
         ++ image_key |} in
  exists w',
    handle_entry env plate image_key w =
      (inr {| statusCode := 200; body := "OPEN_GATE" |}, w')
    /\ table w' = <["lot1" := slots_seen w - 1]> (table w)
    /\ logs_table w' = <[plate := session]> (logs_table w)
    /\ s3 w' = s3 w
    /\ cloudwatch w' =
         if cw_up env
         then (cloudwatch w ++
               [[Metric.mk "AvailableSlots_Demo" (slots_seen w - 1) "Count";
                 Metric.mk "DailyCarCount" 1 "Count"]])%list
         else cloudwatch w.
Proof.
  intros Hplate Hfree request_time session. subst request_time session.
  unfold slots_seen in *. run.
  destruct (table w !! "lot1") as [n|] eqn:Hn; simpl in *.
  - rewrite (leb_pos n Hfree), (eqb_unknown plate Hplate). simpl. rewrite Hn.
    destruct (cw_up env); simpl; finish.
  - rewrite (eqb_unknown plate Hplate). simpl. rewrite lookup_insert_eq.
    destruct (cw_up env); simpl; finish;
      rewrite insert_insert_eq; auto.
Qed.

Lemma handle_entry_open_gate_witness :
  exists w',
    handle_entry (env_at 1000 []) "ABC123" "entry_999.jpg" (lot_with 30) =
      (inr {| statusCode := 200; body := "OPEN_GATE" |}, w')
    /\ table w' !! "lot1" = Some 29
    /\ LogItem.entry_epoch <$> logs_table w' !! "ABC123" = Some 1000.
Proof.
  destruct (handle_entry_open_gate (env_at 1000 []) "ABC123" "entry_999.jpg"
              (lot_with 30)) as (w' & Hrun & Htable & Hlogs & _).
  - discriminate.
  - reflexivity.
  - exists w'. split; [exact Hrun|]. rewrite Htable, Hlogs. split; reflexivity.
Defined.

(** C6: an ENTRY that finds a stored counter at or below zero returns 200
    "FULL" whatever the plate is, "UNKNOWN" included; it reads the counter and
    does nothing else: no store changes and no further call is made. *)
Theorem handle_entry_full env plate image_key w n :
  table w !! "lot1" = Some n ->
  n <= 0 ->
  exists w',
    handle_entry env plate image_key w =
      (inr {| statusCode := 200; body := "FULL" |}, w')
    /\ table w' = table w
    /\ logs_table w' = logs_table w
    /\ s3 w' = s3 w
    /\ cloudwatch w' = cloudwatch w
    /\ calls w' = (calls w ++ [TableGetItem])%list.
Proof.
  intros Hn Hfull. run. rewrite Hn, (leb_nonpos n Hfull). finish.
Qed.

Lemma handle_entry_full_witness :
  exists w',
    handle_entry (env_at 1000 []) "UNKNOWN" "error.jpg" (lot_with 0) =
      (inr {| statusCode := 200; body := "FULL" |}, w')
    /\ table w' = table (lot_with 0)
    /\ logs_table w' = logs_table (lot_with 0)
    /\ s3 w' = s3 (lot_with 0)
    /\ cloudwatch w' = cloudwatch (lot_with 0)
    /\ calls w' = (calls (lot_with 0) ++ [TableGetItem])%list.
Proof.
  apply (handle_entry_full (env_at 1000 []) "UNKNOWN" "error.jpg" (lot_with 0) 0).
  - reflexivity.
  - lia.
Defined.

(** C7: an ENTRY whose plate is "UNKNOWN" and that finds a stored counter
    above zero returns 200 "DENIED_NO_TEXT"; the counter and the session
    records stay as they were, and CloudWatch is not called. *)
Theorem handle_entry_denied_no_text env image_key w n :
  table w !! "lot1" = Some n ->
  0 < n ->
  exists w',
    handle_entry env "UNKNOWN" image_key w =
      (inr {| statusCode := 200; body := "DENIED_NO_TEXT" |}, w')
    /\ table w' = table w
    /\ logs_table w' = logs_table w
    /\ cloudwatch w' = cloudwatch w
    /\ calls w' = (calls w ++ [TableGetItem])%list.
Proof.
  intros Hn Hfree. run. rewrite Hn, (leb_pos n Hfree). finish.
Qed.

Lemma handle_entry_denied_no_text_witness :
  exists w',
    handle_entry (env_at 1000 []) "UNKNOWN" "error.jpg" (lot_with 12) =
      (inr {| statusCode := 200; body := "DENIED_NO_TEXT" |}, w')
    /\ table w' = table (lot_with 12)
    /\ logs_table w' = logs_table (lot_with 12)
    /\ cloudwatch w' = cloudwatch (lot_with 12)
    /\ calls w' = (calls (lot_with 12) ++ [TableGetItem])%list.
Proof.
  apply (handle_entry_denied_no_text (env_at 1000 []) "error.jpg" (lot_with 12) 12).
  - reflexivity.
  - lia.
Defined.

(** ** 14. The exit handler *)

(** Where C2 fails as it was written: an EXIT before any ENTRY.  No occupancy
    record is stored, the update expression of line 149 finds no
    [available_slots] to add to, and [handle_exit] raises instead of
    returning; nothing is stored. *)
Lemma exit_on_fresh_table_raises :
  table fresh_world !! "lot1" = None
  /\ fst (handle_exit (env_at 1000 []) "ABC123" fresh_world) =
       inl (ClientError "ValidationException")
  /\ table (snd (handle_exit (env_at 1000 []) "ABC123" fresh_world)) !! "lot1" = None.
Proof. repeat split. Qed.

(** C2, amended: while the occupancy record is stored, an EXIT adds exactly
    one to the stored counter and returns 200 "EXIT_SUCCESS", whatever the
    plate is ("UNKNOWN" included), whether or not a session record exists for
    it, and whatever the session store and CloudWatch answer; the session
    records are left as they were. *)
Theorem handle_exit_success env plate w n :
  table w !! "lot1" = Some n ->
  exists w',
    handle_exit env plate w =
      (inr {| statusCode := 200; body := "EXIT_SUCCESS" |}, w')
    /\ table w' = <["lot1" := n + 1]> (table w)
    /\ table w' !! "lot1" = Some (n + 1)
    /\ logs_table w' = logs_table w.
Proof.
  intros Hn.
  destruct (handle_exit_stored env plate w n Hn) as (w' & Hrun & Htable & Hlogs & _).
  exists w'. repeat split; try assumption.
  rewrite Htable. apply lookup_insert_eq.
Qed.

Lemma handle_exit_success_witness :
  exists w',
    handle_exit (env_at 1125 []) "NOSUCHCAR" (lot_with_car 29 "ABC123" 1000) =
      (inr {| statusCode := 200; body := "EXIT_SUCCESS" |}, w')
    /\ table w' = <["lot1" := 29 + 1]> (table (lot_with_car 29 "ABC123" 1000))
    /\ table w' !! "lot1" = Some (29 + 1)
    /\ logs_table w' = logs_table (lot_with_car 29 "ABC123" 1000).
Proof.
  apply (handle_exit_success (env_at 1125 []) "NOSUCHCAR"
           (lot_with_car 29 "ABC123" 1000) 29).
  reflexivity.
Defined.

(** C5, amended: the duration [handle_exit] computes.  With a plate other than
    "UNKNOWN", a session store that answers and a record for the plate, it is
    [int((exit_epoch - entry_epoch) / 60)] with the float division of Python;
    while the difference is below 60 * 2^48 seconds in absolute value this is
    the exact quotient truncated toward zero, and so the floor of the quotient
    when moreover the exit is not before the entry.  It is 0 when no record
    matches, when the plate is "UNKNOWN" and when the lookup fails.  This is
    the value pushed as "ParkingDuration", when it is positive. *)
Theorem parking_duration_spec env plate w :
  let exit_epoch := clock env (tick w) in
  (forall item,
      plate <> "UNKNOWN" -> logs_up env = true ->
      logs_table w !! plate = Some item ->
      let duration_seconds := exit_epoch - LogItem.entry_epoch item in
      fst (parking_duration env plate w) = inr (duration_minutes_of duration_seconds)
      /\ (Z.abs duration_seconds < 60 * 2 ^ 48 ->
          fst (parking_duration env plate w) = inr (Z.quot duration_seconds 60))
      /\ (0 <= duration_seconds < 60 * 2 ^ 48 ->
          fst (parking_duration env plate w) = inr (duration_seconds / 60)))
  /\ (logs_table w !! plate = None -> fst (parking_duration env plate w) = inr 0)
  /\ (plate = "UNKNOWN" -> fst (parking_duration env plate w) = inr 0)
  /\ (logs_up env = false -> fst (parking_duration env plate w) = inr 0)
  /\ (forall n d,
        table w !! "lot1" = Some n -> cw_up env = true ->
        fst (parking_duration env plate w) = inr d ->
        cloudwatch (snd (handle_exit env plate w)) =
          (cloudwatch w ++
           [Metric.mk "AvailableSlots_Demo" (n + 1) "Count" ::
            if (0 <? d)%Z then [Metric.mk "ParkingDuration" d "Count"] else []])%list).
Proof.
  intros exit_epoch. subst exit_epoch.
  split; [|split; [|split; [|split]]].
  - intros item Hplate Hup Hitem duration_seconds. subst duration_seconds.
    assert (fst (parking_duration env plate w) =
            inr (duration_minutes_of (clock env (tick w) - LogItem.entry_epoch item)))
      as Hrun.
    { run. rewrite (eqb_unknown plate Hplate), Hup. simpl. rewrite Hitem. simpl.
      rewrite lift_true_divide_caught. reflexivity. }
    split; [exact Hrun|]. split.
    + intros Hbound. rewrite Hrun, duration_minutes_of_exact by exact Hbound.
      reflexivity.
    + intros Hbound. rewrite Hrun, duration_minutes_of_exact by lia.
      rewrite Z.quot_div_nonneg by lia. reflexivity.
  - intros Hnone. run. destruct (String.eqb plate "UNKNOWN"); [reflexivity|].
    destruct (logs_up env); simpl; [|reflexivity]. rewrite Hnone. reflexivity.
  - intros ->. reflexivity.
  - intros Hdown. run. destruct (String.eqb plate "UNKNOWN"); [reflexivity|].
    rewrite Hdown. reflexivity.
  - intros n d Hn Hcw. run. rewrite Hn, Hcw.
    destruct (String.eqb plate "UNKNOWN"); simpl.
    + intros [= <-]. reflexivity.
    + destruct (logs_up env); simpl.
      * destruct (logs_table w !! plate) as [item|]; simpl;
          rewrite ?lift_true_divide_caught; simpl; intros [= <-];
          [destruct (0 <? _)%Z|]; reflexivity.
      * intros [= <-]. reflexivity.
Qed.

Lemma parking_duration_spec_witness :
  fst (parking_duration (env_at 1125 []) "ABC123" (lot_with_car 29 "ABC123" 1000)) =
    inr ((1125 - 1000) / 60)
  /\ fst (parking_duration (env_at 1125 []) "NOSUCHCAR" (lot_with_car 29 "ABC123" 1000)) =
       inr 0.
Proof.
  pose proof (parking_duration_spec (env_at 1125 []) "ABC123"
                (lot_with_car 29 "ABC123" 1000)) as [Hfound _].
  pose proof (parking_duration_spec (env_at 1125 []) "NOSUCHCAR"
                (lot_with_car 29 "ABC123" 1000)) as (_ & Hnone & _).
  split.
  - refine (proj2 (proj2 (Hfound (LogItem.mk "ABC123" "2024-05-01 08:00:00" 1000 "ENTRY"
                                     (image_url_of "entry_0.jpg")) _ _ _)) _).
    + discriminate.
    + reflexivity.
    + reflexivity.
    + simpl. lia.
  - apply Hnone. reflexivity.
Defined.

(** Where C5 fails as it was written.  A record whose [entry_epoch] is
    1700000030, read when the clock of the exit says 1700000000: the code
    truncates -0.5 to 0; the floor is -1.  And a record whose [entry_epoch] is
    0, read when the clock says 59999999999999999: the float nearest to the
    quotient is 1000000000000000.0; the floor is 999999999999999. *)
Lemma parking_duration_not_floor :
  LogItem.entry_epoch <$>
    logs_table (lot_with_car 29 "ABC123" 1700000030) !! "ABC123" = Some 1700000030
  /\ clock (env_at 1700000000 []) (tick (lot_with_car 29 "ABC123" 1700000030)) =
       1700000000
  /\ fst (parking_duration (env_at 1700000000 []) "ABC123"
            (lot_with_car 29 "ABC123" 1700000030)) = inr 0
  /\ (1700000000 - 1700000030) / 60 = -1
  /\ fst (parking_duration (env_at 59999999999999999 []) "ABC123"
            (lot_with_car 29 "ABC123" 0)) = inr 1000000000000000
  /\ (59999999999999999 - 0) / 60 = 999999999999999.
Proof. repeat split. Qed.

(** The scenario of the specification: 30 free slots, "ABC123" enters at T0
    and leaves at T0 + 125. *)
Example scenario_entry_then_exit :
  let T0 := 1700000000 in
  let entry := handle_entry (env_at T0 []) "ABC123" "entry_1700000000.jpg" (lot_with 30) in
  let exit := handle_exit (env_at (T0 + 125) []) "ABC123" (snd entry) in
  fst entry = inr {| statusCode := 200; body := "OPEN_GATE" |}
  /\ table (snd entry) !! "lot1" = Some 29
  /\ LogItem.entry_epoch <$> logs_table (snd entry) !! "ABC123" = Some T0
  /\ fst (parking_duration (env_at (T0 + 125) []) "ABC123" (snd entry)) = inr 2
  /\ fst exit = inr {| statusCode := 200; body := "EXIT_SUCCESS" |}
  /\ table (snd exit) !! "lot1" = Some 30
  /\ last (cloudwatch (snd exit)) =
       Some [Metric.mk "AvailableSlots_Demo" 30 "Count";
             Metric.mk "ParkingDuration" 2 "Count"].
Proof. vm_compute. repeat split. Qed.

(** ** 15. Text recognition *)

(** C8: step D always yields a list, and the plate derived from it is the
    text of the first detection whose type is "LINE" and whose confidence is
    above 70; it is "UNKNOWN" when no detection passes the filter, when the
    recognition call raises, and when the image bytes are empty (in which case
    Rekognition is not called). *)
Theorem plate_read_first_confident_line env image_bytes w :
  exists detected_text w',
    ocr_processing env image_bytes w = (inr detected_text, w')
    /\ (forall ds item,
          image_bytes <> [] -> detect_text env image_bytes = Some ds ->
          first_confident_line ds item ->
          plate_read_of detected_text = TextDetection.DetectedText item)
    /\ (forall ds,
          detect_text env image_bytes = Some ds ->
          (forall item, In item ds -> ~ confident_line item) ->
          plate_read_of detected_text = "UNKNOWN")
    /\ (detect_text env image_bytes = None -> plate_read_of detected_text = "UNKNOWN")
    /\ (image_bytes = [] -> plate_read_of detected_text = "UNKNOWN" /\ w' = w).
Proof.
  run. destruct image_bytes as [|b bs]; simpl.
  - exists [], w. split; [reflexivity|]. repeat split; try reflexivity.
    intros ds item Hne. now destruct Hne.
  - destruct (detect_text env (b :: bs)) as [found|] eqn:Hrek; simpl.
    + eexists _, _. split; [reflexivity|]. split; [|split; [|split]].
      * intros ds item _ [= <-] Hfirst.
        destruct (filter_first found item Hfirst) as [rest ->]. reflexivity.
      * intros ds [= <-] Hnone. rewrite (filter_none found Hnone). reflexivity.
      * discriminate.
      * discriminate.
    + eexists _, _. split; [reflexivity|]. split; [|split; [|split]].
      * discriminate.
      * discriminate.
      * reflexivity.
      * discriminate.
Qed.

Lemma plate_read_first_confident_line_witness :
  exists detected_text w',
    ocr_processing (env_at 1000 sample_detections) [255; 216] fresh_world =
      (inr detected_text, w')
    /\ plate_read_of detected_text = "ABC123".
Proof.
  destruct (plate_read_first_confident_line (env_at 1000 sample_detections)
              [255; 216] fresh_world) as (detected_text & w' & Hrun & Hfirst & _).
  exists detected_text, w'. split; [exact Hrun|].
  apply (Hfirst sample_detections
           (TextDetection.mk "ABC123" "LINE" (701 # 10))).
  - discriminate.
  - reflexivity.
  - exists [TextDetection.mk "ABC" "WORD" (99 # 1);
            TextDetection.mk "PARKING" "LINE" (70 # 1)],
           [TextDetection.mk "XYZ789" "LINE" (99 # 1)].
    split; [reflexivity|]. split.
    + split; reflexivity.
    + intros other [<-|[<-|[]]] [Hty Hc].
      * discriminate Hty.
      * discriminate Hc.
Defined.

(** ** 16. The occupancy counter over sequences of calls *)

(** Where C3 fails as it was written: the initialised lot is in range, and one
    EXIT moves the counter to 31. *)
Lemma exit_breaks_upper_bound :
  reachable (lot_with 30)
  /\ slots_in_range (lot_with 30)
  /\ step (lot_with 30) (snd (handle_exit (env_at 1000 []) "ABC123" (lot_with 30)))
  /\ ~ slots_in_range (snd (handle_exit (env_at 1000 []) "ABC123" (lot_with 30))).
Proof.
  split; [|split; [|split]].
  - apply reachable_initial. right. reflexivity.
  - intros n Hn. vm_compute in Hn. injection Hn as <-. unfold MAX_SPOTS. lia.
  - apply step_exit.
  - intros Hrange. specialize (Hrange 31 eq_refl). unfold MAX_SPOTS in Hrange. lia.
Qed.

Lemma core_step_nonneg w :
  slots_nonneg w ->
  (forall env plate image_key,
      slots_nonneg (snd (handle_entry env plate image_key w)))
  /\ (forall env plate, slots_nonneg (snd (handle_exit env plate w))).
Proof.
  intros Hw. split.
  - intros env plate image_key n.
    destruct (handle_entry_cases env plate image_key w) as (w1 & -> & Hslots).
    simpl. rewrite Hslots. intros [= <-].
    assert (0 <= slots_seen w) as Hseen.
    { unfold slots_seen. destruct (table w !! "lot1") as [m|] eqn:Hm; simpl.
      - now apply Hw.
      - unfold MAX_SPOTS. lia. }
    destruct (Z.leb_spec (slots_seen w) 0); simpl; [lia|].
    destruct (String.eqb plate "UNKNOWN"); lia.
  - intros env plate n.
    destruct (table w !! "lot1") as [m|] eqn:Hm.
    + destruct (handle_exit_stored env plate w m Hm) as (w1 & -> & Htable & _).
      simpl. rewrite Htable, lookup_insert_eq. intros [= <-].
      specialize (Hw m Hm). lia.
    + destruct (handle_exit_absent env plate w Hm) as (w1 & -> & Htable & _).
      simpl. rewrite Htable, Hm. discriminate.
Qed.

Lemma step_nonneg w w' : slots_nonneg w -> step w w' -> slots_nonneg w'.
Proof.
  intros Hw [env plate image_key | env plate | env event].
  - now apply core_step_nonneg.
  - now apply core_step_nonneg.
  - destruct (decode_image event) as [e|image_bytes] eqn:Hdecode.
    + unfold lambda_handler. rewrite Hdecode. exact Hw.
    + destruct (lambda_handler_decoded env event image_bytes w Hdecode)
        as (filename & detected_text & w1 & -> & Htable & _).
      assert (slots_nonneg w1) as Hw1.
      { intros n. rewrite Htable. apply Hw. }
      destruct (String.eqb (action_of event) "ENTRY");
        [now apply core_step_nonneg|].
      destruct (String.eqb (action_of event) "EXIT");
        [now apply core_step_nonneg | exact Hw1].
Qed.

(** C3, amended: the initial record is within [0, MAX_SPOTS]; the lower bound
    0 <= available_slots is preserved by every [handle_entry], every
    [handle_exit] and every whole request, and so holds in every reachable
    state; [handle_entry] also preserves the upper bound, and [handle_exit]
    adds one to whatever is stored. *)
Theorem slots_invariant :
  (forall w, initial w -> slots_in_range w)
  /\ (forall w w', slots_nonneg w -> step w w' -> slots_nonneg w')
  /\ (forall w, reachable w -> slots_nonneg w)
  /\ (forall env plate image_key w,
        slots_in_range w ->
        slots_in_range (snd (handle_entry env plate image_key w)))
  /\ (forall env plate w n,
        table w !! "lot1" = Some n ->
        table (snd (handle_exit env plate w)) !! "lot1" = Some (n + 1)).
Proof.
  assert (forall w, initial w -> slots_in_range w) as Hinit.
  { intros w [Hw|Hw] n; rewrite Hw; [discriminate|].
    intros [= <-]. unfold MAX_SPOTS. lia. }
  split; [exact Hinit|]. split; [exact step_nonneg|]. split; [|split].
  - induction 1 as [w Hw | w w' _ IH Hstep].
    + intros n Hn. now apply (Hinit w Hw n).
    + exact (step_nonneg w w' IH Hstep).
  - intros env plate image_key w Hw n.
    destruct (handle_entry_cases env plate image_key w) as (w' & -> & Hslots).
    simpl. rewrite Hslots. intros [= <-].
    assert (0 <= slots_seen w <= MAX_SPOTS) as Hseen.
    { unfold slots_seen. destruct (table w !! "lot1") as [m|] eqn:Hm; simpl.
      - now apply Hw.
      - unfold MAX_SPOTS. lia. }
    destruct (Z.leb_spec (slots_seen w) 0); simpl; [lia|].
    destruct (String.eqb plate "UNKNOWN"); lia.
  - intros env plate w n Hn.
    destruct (handle_exit_stored env plate w n Hn) as (w' & -> & Htable & _).
    simpl. rewrite Htable. apply lookup_insert_eq.
Qed.

Lemma slots_invariant_witness :
  slots_in_range fresh_world
  /\ slots_nonneg (snd (handle_exit (env_at 1000 []) "ABC123" (lot_with 30)))
  /\ slots_in_range (snd (handle_entry (env_at 1000 []) "ABC123" "entry_999.jpg"
                            (lot_with 30))).
Proof.
  destruct slots_invariant as (Hinit & _ & Hreach & Hentry & _).
  split; [|split].
  - apply Hinit. left. reflexivity.
  - apply Hreach. eapply reachable_step; [|apply step_exit].
    apply reachable_initial. right. reflexivity.
  - apply Hentry, Hinit. right. reflexivity.
Defined.

(** ** 17. The main handler *)



(** Where C4 fails as it was written: the body decodes (to no bytes) and the
    response is 400 all the same, because the action is not one of the two. *)
Lemma decoded_request_answered_400 :
  decode_image (request "exit" "") = inr []
  /\ fst (lambda_handler (env_at 1000 []) (request "exit" "") (lot_with 30)) =
       inr {| statusCode := 400; body := "INVALID_ACTION" |}.
Proof. split; reflexivity. Qed.

(** C4, amended: a request gets a non-200 response if and only if decoding
    the body fails, and then the response is exactly 400 "IMAGE_DECODE_ERROR"
    and nothing was called, or the action is neither "ENTRY" nor "EXIT", and
    then it is 400 "INVALID_ACTION".  A request whose body decodes gets a 200
    response when its action is "ENTRY", and when its action is "EXIT" and the
    occupancy record is stored. *)
Theorem lambda_handler_status env event w :
  (forall e,
      decode_image event = inl e ->
      lambda_handler env event w =
        (inr {| statusCode := 400; body := "IMAGE_DECODE_ERROR" |}, w))
  /\ (forall image_bytes,
        decode_image event = inr image_bytes ->
        action_of event <> "ENTRY" -> action_of event <> "EXIT" ->
        exists w',
          lambda_handler env event w =
            (inr {| statusCode := 400; body := "INVALID_ACTION" |}, w'))
  /\ (forall image_bytes,
        decode_image event = inr image_bytes ->
        action_of event = "ENTRY" ->
        exists message w',
          lambda_handler env event w =
            (inr {| statusCode := 200; body := message |}, w'))
  /\ (forall image_bytes n,
        decode_image event = inr image_bytes ->
        action_of event = "EXIT" ->
        table w !! "lot1" = Some n ->
        exists w',
          lambda_handler env event w =
            (inr {| statusCode := 200; body := "EXIT_SUCCESS" |}, w'))
  /\ (forall response w',
        lambda_handler env event w = (inr response, w') ->
        statusCode response <> 200 <->
        (exists e, decode_image event = inl e)
        \/ (action_of event <> "ENTRY" /\ action_of event <> "EXIT")).
Proof.
  split; [|split; [|split; [|split]]].
  - intros e Hdecode. unfold lambda_handler. rewrite Hdecode. reflexivity.
  - intros image_bytes Hdecode Hentry Hexit.
    destruct (lambda_handler_decoded env event image_bytes w Hdecode)
      as (filename & detected_text & w1 & Hrun & _).
    apply String.eqb_neq in Hentry, Hexit. rewrite Hentry, Hexit in Hrun. eauto.
  - intros image_bytes Hdecode Hentry.
    destruct (lambda_handler_decoded env event image_bytes w Hdecode)
      as (filename & detected_text & w1 & Hrun & _).
    apply String.eqb_eq in Hentry. rewrite Hentry in Hrun.
    destruct (handle_entry_cases env (plate_read_of detected_text) filename w1)
      as (w' & Hcore & _).
    rewrite Hcore in Hrun. eauto.
  - intros image_bytes n Hdecode Hexit Hn.
    destruct (lambda_handler_decoded env event image_bytes w Hdecode)
      as (filename & detected_text & w1 & Hrun & Htable & _).
    rewrite Hexit in Hrun. simpl in Hrun. rewrite <- Htable in Hn.
    destruct (handle_exit_stored env (plate_read_of detected_text) w1 n Hn)
      as (w' & Hcore & _).
    rewrite Hcore in Hrun. eauto.
  - intros response w'. destruct (decode_image event) as [e|image_bytes] eqn:Hdecode.
    + unfold lambda_handler. rewrite Hdecode. intros [= <- _]. simpl.
      split; [eauto | intros _; discriminate].
    + destruct (lambda_handler_decoded env event image_bytes w Hdecode)
        as (filename & detected_text & w1 & -> & Htable & _).
      destruct (String.eqb_spec (action_of event) "ENTRY") as [Hentry|Hentry].
      * destruct (handle_entry_cases env (plate_read_of detected_text) filename w1)
          as (w2 & -> & _).
        intros [= <- _]. simpl. split; [congruence|].
        intros [[e He]|[Hne _]]; [discriminate | contradiction].
      * destruct (String.eqb_spec (action_of event) "EXIT") as [Hexit|Hexit].
        -- destruct (table w1 !! "lot1") as [n|] eqn:Hn.
           ++ destruct (handle_exit_stored env (plate_read_of detected_text) w1 n Hn)
                as (w2 & -> & _).
              intros [= <- _]. simpl. split; [congruence|].
              intros [[e He]|[_ Hne]]; [discriminate | contradiction].
           ++ destruct (handle_exit_absent env (plate_read_of detected_text) w1 Hn)
                as (w2 & -> & _).
              discriminate.
        -- intros [= <- _]. simpl. split; [intros _; right; split; assumption|].
           intros _. discriminate.
Qed.

Lemma lambda_handler_status_witness :
  lambda_handler (env_at 1000 []) (request "ENTRY" "a") (lot_with 30) =
    (inr {| statusCode := 400; body := "IMAGE_DECODE_ERROR" |}, lot_with 30)
  /\ (exists w',
        lambda_handler (env_at 1000 []) (request "EXIT" "aGVsbG8=") (lot_with 29) =
          (inr {| statusCode := 200; body := "EXIT_SUCCESS" |}, w')).
Proof.
  split.
  - apply (proj1 (lambda_handler_status (env_at 1000 []) (request "ENTRY" "a")
                    (lot_with 30)) BinasciiError).
    reflexivity.
  - apply (proj1 (proj2 (proj2 (proj2
             (lambda_handler_status (env_at 1000 []) (request "EXIT" "aGVsbG8=")
                (lot_with 29)))))
             [104; 101; 108; 108; 111] 29); reflexivity.
Defined.

(** Where C10 fails as it was written: an EXIT with an empty body before any
    ENTRY.  The body decodes, and the request ends in the validation error of
    the store, not in "EXIT_SUCCESS". *)
Lemma empty_body_exit_on_fresh_table_raises :
  decode_image (request "EXIT" "") = inr []
  /\ table fresh_world !! "lot1" = None
  /\ fst (lambda_handler (env_at 1000 []) (request "EXIT" "") fresh_world) =
       inl (ClientError "ValidationException").
Proof. repeat split. Qed.

(** C10, amended: an empty body is not a decoding error.  It decodes to no
    bytes, so nothing is uploaded, Rekognition is not called and the plate is
    "UNKNOWN": an ENTRY that sees a free slot ends in 200 "DENIED_NO_TEXT" and
    an EXIT, while the occupancy record is stored, ends in 200
    "EXIT_SUCCESS".  A request with no body field ends in 400
    "IMAGE_DECODE_ERROR" before anything is called. *)
Theorem empty_body_is_not_a_decode_error env w :
  (forall event,
      event_body event = Some (JStr "") ->
      decode_image event = inr []
      /\ ocr_processing env [] w = (inr [], w)
      /\ plate_read_of [] = "UNKNOWN"
      /\ (action_of event = "ENTRY" -> 0 < slots_seen w ->
          exists w',
            lambda_handler env event w =
              (inr {| statusCode := 200; body := "DENIED_NO_TEXT" |}, w')
            /\ calls w' =
                 (calls w ++
                  match table w !! "lot1" with
                  | Some _ => [TableGetItem]
                  | None => [TableGetItem; TablePutItem]
                  end)%list)
      /\ (action_of event = "EXIT" ->
          forall n, table w !! "lot1" = Some n ->
          exists w',
            lambda_handler env event w =
              (inr {| statusCode := 200; body := "EXIT_SUCCESS" |}, w')
            /\ table w' !! "lot1" = Some (n + 1)
            /\ calls w' = (calls w ++ [TableUpdateItem; CloudwatchPutMetricData])%list))
  /\ (forall event,
        event_body event = None ->
        lambda_handler env event w =
          (inr {| statusCode := 400; body := "IMAGE_DECODE_ERROR" |}, w)).
Proof.
  split.
  - intros event Hbody.
    assert (decode_image event = inr []) as Hdecode.
    { unfold decode_image. rewrite Hbody.
      destruct (default false (isBase64Encoded event)); reflexivity. }
    split; [exact Hdecode|]. split; [reflexivity|]. split; [reflexivity|]. split.
    + intros Hentry Hfree. unfold lambda_handler. rewrite Hdecode, Hentry.
      unfold slots_seen in Hfree. run.
      destruct (table w !! "lot1") as [n|] eqn:Hn; simpl in *.
      * rewrite (leb_pos n Hfree). finish.
      * finish. now rewrite <- app_assoc.
    + intros Hexit n Hn. unfold lambda_handler. rewrite Hdecode, Hexit.
      run. rewrite Hn.
      destruct (cw_up env); simpl; finish; rewrite lookup_insert_eq;
        (split; [reflexivity|]); now rewrite <- app_assoc.
  - intros event Hbody. unfold lambda_handler, decode_image. rewrite Hbody.
    reflexivity.
Qed.

Lemma empty_body_is_not_a_decode_error_witness :
  (exists w',
     lambda_handler (env_at 1000 sample_detections) (request "ENTRY" "") (lot_with 30) =
       (inr {| statusCode := 200; body := "DENIED_NO_TEXT" |}, w')
     /\ calls w' = [TableGetItem])
  /\ (exists w',
        lambda_handler (env_at 1000 sample_detections) (request "EXIT" "") (lot_with 29) =
          (inr {| statusCode := 200; body := "EXIT_SUCCESS" |}, w')
        /\ table w' !! "lot1" = Some 30)
  /\ lambda_handler (env_at 1000 sample_detections) (request_without_body "ENTRY")
       (lot_with 30) =
       (inr {| statusCode := 400; body := "IMAGE_DECODE_ERROR" |}, lot_with 30).
Proof.
  pose proof (empty_body_is_not_a_decode_error (env_at 1000 sample_detections)
                (lot_with 30)) as [Hempty Hmissing].
  pose proof (empty_body_is_not_a_decode_error (env_at 1000 sample_detections)
                (lot_with 29)) as [Hempty' _].
  split; [|split].
  - destruct (Hempty (request "ENTRY" "") eq_refl) as (_ & _ & _ & Hentry & _).
    destruct (Hentry eq_refl eq_refl) as (w' & Hrun & Hcalls).
    exists w'. split; [exact Hrun | exact Hcalls].
  - destruct (Hempty' (request "EXIT" "") eq_refl) as (_ & _ & _ & _ & Hexit).
    destruct (Hexit eq_refl 29 eq_refl) as (w' & Hrun & Htable & _).
    exists w'. split; [exact Hrun | exact Htable].
  - apply Hmissing. reflexivity.
Defined.

(** ** 18. More shared facts *)

(** Everything [handle_entry] does, case by case. *)
Lemma handle_entry_effect env plate image_key w :
  exists w',
    handle_entry env plate image_key w =
      (inr (api_response 200
              (if (slots_seen w <=? 0)%Z then "FULL"
               else if String.eqb plate "UNKNOWN" then "DENIED_NO_TEXT"
               else "OPEN_GATE")), w')
    /\ s3 w' = s3 w
    /\ if (slots_seen w <=? 0)%Z || String.eqb plate "UNKNOWN" then
         slots_seen w' = slots_seen w
         /\ logs_table w' = logs_table w
         /\ cloudwatch w' = cloudwatch w
         /\ tick w' = tick w
       else
         table w' = <["lot1" := slots_seen w - 1]> (table w)
         /\ logs_table w' =
              <[plate := LogItem.mk plate (strftime env (clock env (S (tick w))))
                           (clock env (tick w)) "ENTRY" (image_url_of image_key)]>
                (logs_table w)
         /\ cloudwatch w' =
              (if cw_up env
               then (cloudwatch w ++
                     [[Metric.mk "AvailableSlots_Demo" (slots_seen w - 1) "Count";
                       Metric.mk "DailyCarCount" 1 "Count"]])%list
               else cloudwatch w)
         /\ tick w' = S (S (tick w)).
Proof.
  unfold slots_seen. run.
  destruct (table w !! "lot1") as [n|] eqn:Hn; simpl.
  - destruct (n <=? 0)%Z; simpl.
    { finish. rewrite Hn. auto. }
    destruct (String.eqb plate "UNKNOWN"); simpl.
    { finish. rewrite Hn. auto. }
    rewrite Hn. destruct (cw_up env); simpl; finish.
  - destruct (String.eqb plate "UNKNOWN"); simpl.
    + finish. rewrite lookup_insert_eq. auto.
    + rewrite lookup_insert_eq. destruct (cw_up env); simpl; finish;
        rewrite insert_insert_eq; auto.
Qed.

(** Everything [handle_exit] does on a stored counter. *)
Lemma handle_exit_effect env plate w n :
  table w !! "lot1" = Some n ->
  exists w' duration,
    handle_exit env plate w = (inr (api_response 200 "EXIT_SUCCESS"), w')
    /\ fst (parking_duration env plate w) = inr duration
    /\ table w' = <["lot1" := n + 1]> (table w)
    /\ logs_table w' = logs_table w
    /\ s3 w' = s3 w
    /\ cloudwatch w' =
         (if cw_up env
          then (cloudwatch w ++
                [Metric.mk "AvailableSlots_Demo" (n + 1) "Count" ::
                 if (0 <? duration)%Z
                 then [Metric.mk "ParkingDuration" duration "Count"] else []])%list
          else cloudwatch w).
Proof.
  intros Hn. run. rewrite Hn.
  destruct (String.eqb plate "UNKNOWN"); simpl.
  - destruct (cw_up env); simpl; eexists _, _; (split; [reflexivity|]); simpl; auto.
  - destruct (logs_up env); simpl.
    + destruct (logs_table w !! plate) as [item|]; simpl.
      * rewrite ?lift_true_divide_caught. simpl.
        destruct (cw_up env); simpl;
          [destruct (0 <? _)%Z eqn:Hd|];
          eexists _, _; (split; [reflexivity|]); simpl;
          rewrite ?Hd; auto.
      * destruct (cw_up env); simpl; eexists _, _; (split; [reflexivity|]); simpl; auto.
    + destruct (cw_up env); simpl; eexists _, _; (split; [reflexivity|]); simpl; auto.
Qed.

(** ** 19. Metrics are best effort *)

(** X1: [send_cloudwatch_data] never raises and touches no table and no
    bucket.  It calls CloudWatch once; when CloudWatch answers, the batch
    starts with "AvailableSlots_Demo", holds "DailyCarCount" exactly for the
    action "ENTRY" and "ParkingDuration" exactly for the action "EXIT" with a
    positive duration; when CloudWatch fails, nothing is recorded. *)
Theorem send_cloudwatch_data_best_effort env action plate slots_left duration_mins w :
  exists w',
    send_cloudwatch_data env action plate slots_left duration_mins w = (inr tt, w')
    /\ table w' = table w
    /\ logs_table w' = logs_table w
    /\ s3 w' = s3 w
    /\ calls w' = (calls w ++ [CloudwatchPutMetricData])%list
    /\ (cw_up env = false -> cloudwatch w' = cloudwatch w)
    /\ (cw_up env = true ->
        exists batch,
          cloudwatch w' = (cloudwatch w ++ [batch])%list
          /\ head batch = Some (Metric.mk "AvailableSlots_Demo" slots_left "Count")
          /\ (In (Metric.mk "DailyCarCount" 1 "Count") batch <-> action = "ENTRY")
          /\ (forall v,
                In (Metric.mk "ParkingDuration" v "Count") batch <->
                action = "EXIT" /\ 0 < duration_mins /\ v = duration_mins)).
Proof.
  run. destruct (cw_up env) eqn:Hcw; simpl.
  - eexists. split; [reflexivity|]. simpl.
    do 4 (split; [reflexivity|]). split; [discriminate|]. intros _.
    eexists. split; [reflexivity|].
    destruct (String.eqb_spec action "ENTRY") as [->|Hentry]; simpl.
    + split; [reflexivity|]. split.
      * split; [reflexivity | intros _; right; left; reflexivity].
      * intros v. split.
        -- intros [H|[H|[]]]; discriminate H.
        -- intros [H _]. discriminate H.
    + destruct (String.eqb_spec action "EXIT") as [->|Hexit]; simpl.
      * destruct (Z.ltb_spec 0 duration_mins) as [Hpos|Hneg]; simpl.
        -- split; [reflexivity|]. split.
           ++ split; [intros [H|[H|[]]]; discriminate H | discriminate].
           ++ intros v. split.
              ** intros [H|[H|[]]]; [discriminate H|].
                 injection H as <-. auto.
              ** intros (_ & _ & ->). right. left. reflexivity.
        -- split; [reflexivity|]. split.
           ++ split; [intros [H|[]]; discriminate H | discriminate].
           ++ intros v. split.
              ** intros [H|[]]; discriminate H.
              ** intros (_ & Hpos & _). lia.
      * split; [reflexivity|]. split.
        -- split; [intros [H|[]]; discriminate H | intros H; contradiction].
        -- intros v. split.
           ++ intros [H|[]]; discriminate H.
           ++ intros [H _]. contradiction.
  - eexists. split; [reflexivity|]. simpl.
    do 4 (split; [reflexivity|]). split; [reflexivity | discriminate].
Qed.

Lemma send_cloudwatch_data_best_effort_witness :
  exists w',
    send_cloudwatch_data (env_at 1000 []) "EXIT" "ABC123" 30 2 (lot_with 30) = (inr tt, w')
    /\ cloudwatch w' =
         [[Metric.mk "AvailableSlots_Demo" 30 "Count";
           Metric.mk "ParkingDuration" 2 "Count"]].
Proof.
  destruct (send_cloudwatch_data_best_effort (env_at 1000 []) "EXIT" "ABC123" 30 2
              (lot_with 30)) as (w' & Hrun & _).
  exists w'. split; [exact Hrun|].
  vm_compute in Hrun. injection Hrun as <-. reflexivity.
Defined.

(** X2: the "AvailableSlots_Demo" sample agrees with the store.  Whenever
    [handle_entry] or [handle_exit] gets a batch accepted, the value of its
    first sample is the counter that is stored when the call returns. *)
Theorem pushed_slots_match_store env w :
  (forall plate image_key,
      let w' := snd (handle_entry env plate image_key w) in
      cloudwatch w' = cloudwatch w
      \/ exists v others,
           cloudwatch w' =
             (cloudwatch w ++ [Metric.mk "AvailableSlots_Demo" v "Count" :: others])%list
           /\ table w' !! "lot1" = Some v)
  /\ (forall plate,
        let w' := snd (handle_exit env plate w) in
        cloudwatch w' = cloudwatch w
        \/ exists v others,
             cloudwatch w' =
               (cloudwatch w ++ [Metric.mk "AvailableSlots_Demo" v "Count" :: others])%list
             /\ table w' !! "lot1" = Some v).
Proof.
  split.
  - intros plate image_key.
    destruct (handle_entry_effect env plate image_key w) as (w' & -> & _ & Heffect).
    simpl. destruct ((slots_seen w <=? 0)%Z || String.eqb plate "UNKNOWN").
    + left. apply Heffect.
    + destruct Heffect as (Htable & _ & Hcw & _). rewrite Hcw.
      destruct (cw_up env); [right | now left].
      eexists _, _. split; [reflexivity|]. rewrite Htable. apply lookup_insert_eq.
  - intros plate. destruct (table w !! "lot1") as [n|] eqn:Hn.
    + destruct (handle_exit_effect env plate w n Hn)
        as (w' & duration & -> & _ & Htable & _ & _ & Hcw).
      simpl. rewrite Hcw. destruct (cw_up env); [right | now left].
      eexists _, _. split; [reflexivity|]. rewrite Htable. apply lookup_insert_eq.
    + destruct (handle_exit_absent env plate w Hn) as (w' & Hrun & _).
      left. revert Hrun. run. rewrite Hn. intros [= <-]. reflexivity.
Qed.

(** ** 20. Outages of S3 and CloudWatch *)

(** X3: an outage of S3 or of CloudWatch is not visible to the caller.  With
    the same event, world and remaining collaborators, the handler returns the
    same result, leaves the same tables and makes the same calls whether or
    not the upload and the metrics push succeed. *)
Theorem lambda_handler_ignores_outages env event w s3_ok cw_ok :
  let normal := lambda_handler (with_outages env true true) event w in
  let degraded := lambda_handler (with_outages env s3_ok cw_ok) event w in
  fst degraded = fst normal
  /\ table (snd degraded) = table (snd normal)
  /\ logs_table (snd degraded) = logs_table (snd normal)
  /\ calls (snd degraded) = calls (snd normal).
Proof.
  unfold lambda_handler.
  destruct (decode_image event) as [e|image_bytes]; [repeat split|].
  run.
  destruct s3_ok, cw_ok; simpl;
    (destruct image_bytes as [|b bs]; simpl;
     [|destruct (detect_text env (b :: bs)) as [ds|]; simpl]);
    (destruct (String.eqb (action_of event) "ENTRY"); simpl;
     [ destruct (table w !! "lot1") as [n|] eqn:Hn; simpl;
       [ destruct (n <=? 0)%Z; simpl | ];
       try (destruct (String.eqb (plate_read_of _) "UNKNOWN"); simpl);
       rewrite ?Hn, ?lookup_insert_eq; simpl
     | destruct (String.eqb (action_of event) "EXIT"); simpl;
       [ destruct (table w !! "lot1") as [n|] eqn:Hn; simpl;
         try (destruct (String.eqb (plate_read_of _) "UNKNOWN"); simpl);
         try (destruct (logs_up env); simpl);
         try (destruct (logs_table w !! _); simpl);
         try (destruct (long_true_divide _ 60); simpl)
       | ] ]);
    repeat split; reflexivity.
Qed.

(** ** 21. How calls compose *)

Lemma slots_seen_insert (t : gmap string Z) (w' : World) (v : Z) :
  table w' = <["lot1" := v]> t -> slots_seen w' = v.
Proof. intros H. unfold slots_seen. rewrite H, lookup_insert_eq. reflexivity. Qed.



(** X5: a lot with [n] free slots admits exactly [n] cars.  In a run of direct
    ENTRY calls whose plates were all read, the first [n] calls (or all of
    them, when there are fewer) answer "OPEN_GATE", every later one answers
    "FULL", and the counter ends [n] minus the number admitted. *)
Theorem lot_admits_exactly_free_slots ops w :
  Forall recognised_entry ops ->
  let admitted := Nat.min (Z.to_nat (slots_seen w)) (length ops) in
  fst (run_ops ops w) =
    (repeat (inr {| statusCode := 200; body := "OPEN_GATE" |}) admitted
     ++ repeat (inr {| statusCode := 200; body := "FULL" |}) (length ops - admitted))%list
  /\ slots_seen (snd (run_ops ops w)) = slots_seen w - Z.of_nat admitted.
Proof.
  intros Hops. revert w. induction Hops as [|op ops Hop _ IH]; intros w; simpl.
  - rewrite Nat.min_0_r. simpl. split; [reflexivity | lia].
  - destruct op as [env plate image_key | |]; simpl in Hop; try contradiction.
    simpl.
    destruct (handle_entry_effect env plate image_key w) as (w1 & -> & _ & Heffect).
    rewrite (eqb_unknown _ Hop) in Heffect |- *.
    specialize (IH w1). simpl in IH.
    destruct (run_ops ops w1) as [results w2]. simpl in *.
    destruct IH as [IHresults IHslots].
    destruct (Z.leb_spec (slots_seen w) 0) as [Hfull|Hfree]; simpl in Heffect.
    + destruct Heffect as (Hseen & _). rewrite Hseen in *.
      replace (Z.to_nat (slots_seen w)) with 0%nat in * by lia.
      simpl in *. rewrite Nat.sub_0_r in IHresults.
      split; [now rewrite IHresults | lia].
    + destruct Heffect as (Htable & _).
      apply slots_seen_insert in Htable. rewrite Htable in *.
      replace (Z.to_nat (slots_seen w)) with (S (Z.to_nat (slots_seen w - 1))) by lia.
      simpl. split; [now rewrite IHresults | lia].
Qed.

Lemma lot_admits_exactly_free_slots_witness :
  fst (run_ops [OpEntry (env_at 1000 []) "AAA111" "entry_1000.jpg";
                OpEntry (env_at 1001 []) "BBB222" "entry_1001.jpg";
                OpEntry (env_at 1002 []) "CCC333" "entry_1002.jpg"] (lot_with 2)) =
    [inr {| statusCode := 200; body := "OPEN_GATE" |};
     inr {| statusCode := 200; body := "OPEN_GATE" |};
     inr {| statusCode := 200; body := "FULL" |}].
Proof.
  refine (proj1 (lot_admits_exactly_free_slots
                   [OpEntry (env_at 1000 []) "AAA111" "entry_1000.jpg";
                    OpEntry (env_at 1001 []) "BBB222" "entry_1001.jpg";
                    OpEntry (env_at 1002 []) "CCC333" "entry_1002.jpg"] (lot_with 2) _)).
  repeat constructor; discriminate.
Defined.

(** What one invocation does to the counter. *)
Lemma run_op_accounting op w :
  slots_seen (snd (run_op op w)) =
    slots_seen w
    - (if answered "OPEN_GATE" (fst (run_op op w)) then 1 else 0)
    + (if answered "EXIT_SUCCESS" (fst (run_op op w)) then 1 else 0).
Proof.
  assert (forall env plate image_key w,
             slots_seen (snd (handle_entry env plate image_key w)) =
               slots_seen w
               - (if answered "OPEN_GATE" (fst (handle_entry env plate image_key w))
                  then 1 else 0)
               + (if answered "EXIT_SUCCESS" (fst (handle_entry env plate image_key w))
                  then 1 else 0)) as Hentry.
  { clear. intros env plate image_key w.
    destruct (handle_entry_effect env plate image_key w) as (w1 & -> & _ & Heffect).
    simpl. destruct (slots_seen w <=? 0)%Z; simpl in *.
    - destruct Heffect as [-> _]. lia.
    - destruct (String.eqb plate "UNKNOWN"); simpl in *.
      + destruct Heffect as [-> _]. lia.
      + destruct Heffect as [Htable _]. rewrite (slots_seen_insert _ _ _ Htable). lia. }
  assert (forall env plate w,
             slots_seen (snd (handle_exit env plate w)) =
               slots_seen w
               - (if answered "OPEN_GATE" (fst (handle_exit env plate w)) then 1 else 0)
               + (if answered "EXIT_SUCCESS" (fst (handle_exit env plate w))
                  then 1 else 0)) as Hexit.
  { clear. intros env plate w. destruct (table w !! "lot1") as [n|] eqn:Hn.
    - destruct (handle_exit_stored env plate w n Hn) as (w1 & -> & Htable & _).
      simpl. rewrite (slots_seen_insert _ _ _ Htable).
      unfold slots_seen. rewrite Hn. simpl. lia.
    - destruct (handle_exit_absent env plate w Hn) as (w1 & -> & Htable & _).
      simpl. unfold slots_seen. rewrite Htable. lia. }
  destruct op as [env plate image_key | env plate | env event]; simpl.
  - apply Hentry.
  - apply Hexit.
  - destruct (decode_image event) as [e|image_bytes] eqn:Hdecode.
    + unfold lambda_handler. rewrite Hdecode. simpl. lia.
    + destruct (lambda_handler_decoded env event image_bytes w Hdecode)
        as (filename & detected_text & w1 & -> & Htable & _).
      assert (slots_seen w = slots_seen w1) as ->.
      { unfold slots_seen. now rewrite Htable. }
      destruct (String.eqb (action_of event) "ENTRY"); [apply Hentry|].
      destruct (String.eqb (action_of event) "EXIT"); [apply Hexit|].
      simpl. lia.
Qed.

(** X6: the counter keeps the books.  After any sequence of direct calls and
    whole requests in which the calls to the two tables that are outside a
    [try] go through, and whatever S3, Rekognition, the session lookup and
    CloudWatch did, the counter (30 while no record is stored) is the one it
    started from, minus the number of "OPEN_GATE" answers, plus the number of
    "EXIT_SUCCESS" answers. *)
Theorem slots_accounting ops w :
  slots_seen (snd (run_ops ops w)) =
    slots_seen w
    - count_answered "OPEN_GATE" (fst (run_ops ops w))
    + count_answered "EXIT_SUCCESS" (fst (run_ops ops w)).
Proof.
  revert w. induction ops as [|op ops IH]; intros w.
  - unfold count_answered. simpl. lia.
  - simpl. pose proof (run_op_accounting op w) as Hop.
    destruct (run_op op w) as [result w1]. simpl in Hop.
    specialize (IH w1). destruct (run_ops ops w1) as [results w2].
    simpl in *. unfold count_answered in *. simpl.
    destruct (answered "OPEN_GATE" result), (answered "EXIT_SUCCESS" result);
      simpl; lia.
Qed.

(** ** 22. The session records *)

(** One invocation leaves the session records alone or files one record. *)
Lemma run_op_sessions op w :
  logs_table (snd (run_op op w)) = logs_table w
  \/ exists plate timestamp epoch image_key,
       plate <> "UNKNOWN"
       /\ logs_table (snd (run_op op w)) =
            <[plate := LogItem.mk plate timestamp epoch "ENTRY" (image_url_of image_key)]>
              (logs_table w).
Proof.
  assert (forall env plate image_key w,
             logs_table (snd (handle_entry env plate image_key w)) = logs_table w
             \/ exists plate' timestamp epoch image_key',
                  plate' <> "UNKNOWN"
                  /\ logs_table (snd (handle_entry env plate image_key w)) =
                       <[plate' := LogItem.mk plate' timestamp epoch "ENTRY"
                                     (image_url_of image_key')]> (logs_table w)) as Hentry.
  { clear. intros env plate image_key w.
    destruct (handle_entry_effect env plate image_key w) as (w1 & -> & _ & Heffect).
    simpl. destruct (slots_seen w <=? 0)%Z; simpl in *; [left; apply Heffect|].
    destruct (String.eqb_spec plate "UNKNOWN"); simpl in *; [left; apply Heffect|].
    right. destruct Heffect as (_ & -> & _). eauto 10. }
  assert (forall env plate w,
             logs_table (snd (handle_exit env plate w)) = logs_table w) as Hexit.
  { clear. intros env plate w. destruct (table w !! "lot1") as [n|] eqn:Hn.
    - now destruct (handle_exit_stored env plate w n Hn) as (w1 & -> & _ & Hs & _).
    - now destruct (handle_exit_absent env plate w Hn) as (w1 & -> & _ & Hs). }
  destruct op as [env plate image_key | env plate | env event]; simpl.
  - apply Hentry.
  - left. apply Hexit.
  - destruct (decode_image event) as [e|image_bytes] eqn:Hdecode.
    + left. unfold lambda_handler. now rewrite Hdecode.
    + destruct (lambda_handler_decoded env event image_bytes w Hdecode)
        as (filename & detected_text & w1 & -> & _ & Hsessions & _).
      rewrite <- Hsessions.
      destruct (String.eqb (action_of event) "ENTRY"); [apply Hentry|].
      destruct (String.eqb (action_of event) "EXIT"); [left; apply Hexit|].
      now left.
Qed.

(** X7: no invocation ever deletes a session.  After any sequence of direct
    calls and whole requests, every plate that had a session record still has
    one; an EXIT in particular does not close the session. *)
Theorem sessions_are_never_deleted ops w plate :
  is_Some (logs_table w !! plate) ->
  is_Some (logs_table (snd (run_ops ops w)) !! plate).
Proof.
  revert w. induction ops as [|op ops IH]; intros w Hplate; [exact Hplate|].
  simpl. pose proof (run_op_sessions op w) as Hop.
  destruct (run_op op w) as [result w1]. simpl in Hop.
  specialize (IH w1). destruct (run_ops ops w1) as [results w2]. simpl in *.
  apply IH. destruct Hop as [-> | (plate' & ts & epoch & key & _ & ->)];
    [exact Hplate|].
  rewrite lookup_insert. case_decide; eauto.
Qed.

Lemma sessions_are_never_deleted_witness :
  is_Some (logs_table
             (snd (run_ops [OpExit (env_at 1125 []) "ABC123";
                            OpExit (env_at 1130 []) "ABC123";
                            OpEntry (env_at 1200 []) "XYZ789" "entry_1200.jpg"]
                     (lot_with_car 29 "ABC123" 1000))) !! "ABC123").
Proof.
  apply (sessions_are_never_deleted
           [OpExit (env_at 1125 []) "ABC123";
            OpExit (env_at 1130 []) "ABC123";
            OpEntry (env_at 1200 []) "XYZ789" "entry_1200.jpg"]
           (lot_with_car 29 "ABC123" 1000) "ABC123").
  eexists. reflexivity.
Defined.

(** X8: the shape of the session store is an invariant.  If every record is
    filed under its own plate, with a plate other than "UNKNOWN", the action
    "ENTRY" and a URL into the bucket, this still holds after any sequence of
    direct calls and whole requests; an empty store has the property, so no
    session is ever filed under "UNKNOWN". *)
Theorem sessions_stay_well_formed ops w :
  sessions_well_formed w ->
  sessions_well_formed (snd (run_ops ops w)).
Proof.
  revert w. induction ops as [|op ops IH]; intros w Hw; [exact Hw|].
  simpl. pose proof (run_op_sessions op w) as Hop.
  destruct (run_op op w) as [result w1]. simpl in Hop.
  specialize (IH w1). destruct (run_ops ops w1) as [results w2]. simpl in *.
  apply IH. intros plate Item.
  destruct Hop as [-> | (plate' & ts & epoch & key & Hknown & ->)]; [apply Hw|].
  rewrite lookup_insert. case_decide as Hsame; [|apply Hw].
  subst plate'. intros [= <-]. simpl. eauto.
Qed.

Lemma sessions_stay_well_formed_witness :
  sessions_well_formed
    (snd (run_ops [OpRequest (env_at 1000 sample_detections) (request "ENTRY" "aGVsbG8=");
                   OpRequest (env_at 1100 []) (request "ENTRY" "aGVsbG8=");
                   OpExit (env_at 1125 []) "ABC123"] fresh_world)).
Proof.
  apply (sessions_stay_well_formed
           [OpRequest (env_at 1000 sample_detections) (request "ENTRY" "aGVsbG8=");
            OpRequest (env_at 1100 []) (request "ENTRY" "aGVsbG8=");
            OpExit (env_at 1125 []) "ABC123"] fresh_world).
  intros plate Item Hnone. discriminate Hnone.
Defined.

(** X9: a plate that enters twice loses its first entry time and takes two
    slots.  After two ENTRY calls with the same read plate and at least two
    free slots, the counter is down by two and the one session record carries
    the clock reading and the image key of the second call. *)
Theorem second_entry_overwrites_session env1 env2 plate image_key1 image_key2 w :
  plate <> "UNKNOWN" ->
  1 < slots_seen w ->
  let first := handle_entry env1 plate image_key1 w in
  let second := handle_entry env2 plate image_key2 (snd first) in
  fst first = inr {| statusCode := 200; body := "OPEN_GATE" |}
  /\ fst second = inr {| statusCode := 200; body := "OPEN_GATE" |}
  /\ table (snd second) !! "lot1" = Some (slots_seen w - 2)
  /\ logs_table (snd second) =
       <[plate := LogItem.mk plate (strftime env2 (clock env2 (S (S (S (tick w))))))
                    (clock env2 (S (S (tick w)))) "ENTRY" (image_url_of image_key2)]>
         (logs_table w).
Proof.
  intros Hplate Hfree first second. subst first second.
  destruct (handle_entry_effect env1 plate image_key1 w) as (w1 & -> & _ & Heffect1).
  rewrite (leb_pos (slots_seen w)), (eqb_unknown _ Hplate) in Heffect1 |- * by lia.
  simpl in *. destruct Heffect1 as (Htable1 & Hsessions1 & _ & Htick1).
  pose proof (slots_seen_insert _ _ _ Htable1) as Hseen1.
  destruct (handle_entry_effect env2 plate image_key2 w1) as (w2 & -> & _ & Heffect2).
  rewrite (leb_pos (slots_seen w1)), (eqb_unknown _ Hplate) in Heffect2 |- * by lia.
  simpl in *. destruct Heffect2 as (Htable2 & Hsessions2 & _ & _).
  split; [reflexivity|]. split; [reflexivity|]. split.
  - rewrite Htable2, lookup_insert_eq, Hseen1. f_equal. lia.
  - rewrite Hsessions2, Hsessions1, Htick1. apply insert_insert_eq.
Qed.

Lemma second_entry_overwrites_session_witness :
  table (snd (handle_entry (env_at 2000 []) "ABC123" "entry_2000.jpg"
                (snd (handle_entry (env_at 1000 []) "ABC123" "entry_1000.jpg"
                        (lot_with 30))))) !! "lot1" = Some 28
  /\ LogItem.entry_epoch <$>
       logs_table (snd (handle_entry (env_at 2000 []) "ABC123" "entry_2000.jpg"
                          (snd (handle_entry (env_at 1000 []) "ABC123" "entry_1000.jpg"
                                  (lot_with 30))))) !! "ABC123" = Some 2000.
Proof.
  pose proof (second_entry_overwrites_session (env_at 1000 []) (env_at 2000 [])
                "ABC123" "entry_1000.jpg" "entry_2000.jpg" (lot_with 30)) as H.
  cbv zeta in H. destruct H as (_ & _ & Hslots & Hsessions).
  - discriminate.
  - reflexivity.
  - split; [exact Hslots|]. rewrite Hsessions. reflexivity.
Defined.



(** ** 23. The request as a whole *)

(** The values steps C and D hand to the routing, and the world they leave. *)
Lemma lambda_handler_routes env event image_bytes w :
  decode_image event = inr image_bytes ->
  let filename :=
    if nonempty image_bytes then filename_of env (action_of event) w else "error.jpg" in
  let detected_text :=
    if nonempty image_bytes then
      match detect_text env image_bytes with
      | Some ds => map TextDetection.DetectedText (List.filter high_confidence_line ds)
      | None => []
      end
    else [] in
  exists w1,
    lambda_handler env event w =
      (if String.eqb (action_of event) "ENTRY"
       then handle_entry env (plate_read_of detected_text) filename w1
       else if String.eqb (action_of event) "EXIT"
       then handle_exit env (plate_read_of detected_text) w1
       else (inr (api_response 400 "INVALID_ACTION"), w1))
    /\ table w1 = table w
    /\ logs_table w1 = logs_table w
    /\ cloudwatch w1 = cloudwatch w
    /\ tick w1 = (if nonempty image_bytes then S (tick w) else tick w)
    /\ calls w1 =
         (calls w ++
          if nonempty image_bytes
          then [S3PutObject (filename_of env (action_of event) w); RekognitionDetectText]
          else [])%list.
Proof.
  intros Hdecode filename detected_text. subst filename detected_text.
  unfold lambda_handler. rewrite Hdecode. unfold filename_of.
  unfold debug_storage, ocr_processing, s3_put_object, rekognition_detect_text,
    time_time, try_except, bind, raise, ret, log_call.
  destruct image_bytes as [|b bs]; simpl.
  - exists w. rewrite app_nil_r.
    destruct (String.eqb (action_of event) "ENTRY"); [repeat split|].
    destruct (String.eqb (action_of event) "EXIT"); repeat split.
  - destruct (s3_up env), (detect_text env (b :: bs)) as [ds|]; simpl;
      eexists;
      (split;
       [ destruct (String.eqb (action_of event) "ENTRY"); [reflexivity|];
         destruct (String.eqb (action_of event) "EXIT"); reflexivity
       | simpl; rewrite <- ?app_assoc; repeat split ]).
Qed.

(** The head of the filtered list comes from the first survivor. *)
Lemma filter_head_first (ds : list TextDetection.t) (item : TextDetection.t) rest :
  List.filter high_confidence_line ds = item :: rest ->
  first_confident_line ds item.
Proof.
  induction ds as [|d ds IH]; simpl; [discriminate|].
  destruct (high_confidence_line d) eqn:E.
  - intros [= -> _]. exists [], ds. split; [reflexivity|].
    split; [now apply high_confidence_line_spec | intros other []].
  - intros Hfilter. destruct (IH Hfilter) as (before & after & -> & Hitem & Hbefore).
    exists (d :: before), after. split; [reflexivity|]. split; [exact Hitem|].
    intros other [<-|Hin]; [|now apply Hbefore].
    intros Hd. apply high_confidence_line_spec in Hd. congruence.
Qed.

(** X11: a request without the action header is an ENTRY.  When the event has
    no [headers] key, or its headers hold neither "x-parking-action" nor
    "X-Parking-Action" (whatever else they hold, another spelling of the name
    included), a request whose body decodes is answered by [handle_entry]:
    200 with "FULL", "DENIED_NO_TEXT" or "OPEN_GATE", and the occupancy record
    exists afterwards. *)
Theorem unlabelled_request_is_an_entry env event image_bytes w :
  decode_image event = inr image_bytes ->
  (forall h, headers event = Some h ->
             h !! "x-parking-action" = None /\ h !! "X-Parking-Action" = None) ->
  exists message w',
    lambda_handler env event w = (inr {| statusCode := 200; body := message |}, w')
    /\ In message ["FULL"; "DENIED_NO_TEXT"; "OPEN_GATE"]
    /\ is_Some (table w' !! "lot1").
Proof.
  intros Hdecode Hheaders.
  assert (action_of event = "ENTRY") as Haction.
  { unfold action_of. destruct (headers event) as [h|]; simpl; [|reflexivity].
    destruct (Hheaders h eq_refl) as [-> ->]. reflexivity. }
  destruct (lambda_handler_decoded env event image_bytes w Hdecode)
    as (filename & detected_text & w1 & -> & _).
  rewrite Haction. simpl.
  destruct (handle_entry_cases env (plate_read_of detected_text) filename w1)
    as (w' & -> & Hslots).
  eexists _, w'. split; [reflexivity|]. split; [|eauto].
  destruct (slots_seen w1 <=? 0)%Z; [now left|].
  destruct (String.eqb _ "UNKNOWN"); simpl; auto.
Qed.

Lemma unlabelled_request_is_an_entry_witness :
  exists message w',
    lambda_handler (env_at 1000 [])
      (request_with_headers {[ "X-PARKING-ACTION" := "EXIT" ]} "aGVsbG8=") (lot_with 5) =
      (inr {| statusCode := 200; body := message |}, w')
    /\ In message ["FULL"; "DENIED_NO_TEXT"; "OPEN_GATE"]
    /\ is_Some (table w' !! "lot1").
Proof.
  apply (unlabelled_request_is_an_entry (env_at 1000 [])
           (request_with_headers {[ "X-PARKING-ACTION" := "EXIT" ]} "aGVsbG8=")
           [104; 101; 108; 108; 111] (lot_with 5)).
  - reflexivity.
  - intros h [= <-]. split; reflexivity.
Defined.

(** X12: the [isBase64Encoded] key of the event changes nothing.  Whether it
    is true, false or absent, the body is decoded the same way and the
    handler returns the same result in the same world. *)
Theorem isBase64Encoded_is_ignored env event flag w :
  lambda_handler env (with_isBase64Encoded flag event) w = lambda_handler env event w.
Proof.
  unfold lambda_handler, action_of, decode_image, with_isBase64Encoded. simpl.
  destruct (event_body event) as [body|]; [|reflexivity].
  destruct (default false flag), (default false (isBase64Encoded event)); reflexivity.
Qed.

(** X13: what an "OPEN_GATE" answer to a request implies.  The body decoded to
    image bytes that are not empty, the action was "ENTRY", a slot was free,
    Rekognition answered and the plate is the text of its first "LINE"
    detection above 70; the plate is not "UNKNOWN", its session record holds
    the clock reading taken after the upload and the URL of the key the image
    was uploaded under (never "error.jpg"), and the counter is down by one. *)
Theorem open_gate_implies env event w response w' :
  lambda_handler env event w = (inr response, w') ->
  body response = "OPEN_GATE" ->
  exists image_bytes ds item,
    decode_image event = inr image_bytes
    /\ image_bytes <> []
    /\ action_of event = "ENTRY"
    /\ 0 < slots_seen w
    /\ detect_text env image_bytes = Some ds
    /\ first_confident_line ds item
    /\ TextDetection.DetectedText item <> "UNKNOWN"
    /\ logs_table w' !! TextDetection.DetectedText item =
         Some (LogItem.mk (TextDetection.DetectedText item)
                 (strftime env (clock env (S (S (tick w)))))
                 (clock env (S (tick w))) "ENTRY"
                 (image_url_of (filename_of env "ENTRY" w)))
    /\ table w' !! "lot1" = Some (slots_seen w - 1).
Proof.
  intros Hrun Hopen.
  destruct (decode_image event) as [e|image_bytes] eqn:Hdecode.
  { unfold lambda_handler in Hrun. rewrite Hdecode in Hrun.
    injection Hrun as <- _. discriminate Hopen. }
  destruct (lambda_handler_routes env event image_bytes w Hdecode)
    as (w1 & Hroute & Htable & Hsessions & _ & Htick & _).
  rewrite Hroute in Hrun. clear Hroute.
  match type of Hrun with
  | context [plate_read_of ?dt] => remember dt as detected_text eqn:Hdetected
  end.
  destruct (String.eqb_spec (action_of event) "ENTRY") as [Haction|_].
  2:{ destruct (String.eqb (action_of event) "EXIT").
      - destruct (table w1 !! "lot1") as [n|] eqn:Hn.
        + destruct (handle_exit_stored env (plate_read_of detected_text) w1 n Hn)
            as (w2 & Hexit & _).
          rewrite Hexit in Hrun. injection Hrun as <- _. discriminate Hopen.
        + destruct (handle_exit_absent env (plate_read_of detected_text) w1 Hn)
            as (w2 & Hexit & _).
          rewrite Hexit in Hrun. discriminate Hrun.
      - injection Hrun as <- _. discriminate Hopen. }
  assert (slots_seen w1 = slots_seen w) as Hseen.
  { unfold slots_seen. now rewrite Htable. }
  match type of Hrun with
  | handle_entry _ _ ?fn _ = _ =>
      destruct (handle_entry_effect env (plate_read_of detected_text) fn w1)
        as (w2 & Hentry & _ & Heffect);
      rewrite Hentry in Hrun
  end.
  injection Hrun as <- <-. rewrite Hseen in *.
  destruct (Z.leb_spec (slots_seen w) 0) as [_|Hfree]; [discriminate Hopen|].
  destruct (String.eqb_spec (plate_read_of detected_text) "UNKNOWN") as [_|Hplate];
    [discriminate Hopen|].
  simpl in Heffect. destruct Heffect as (Htable2 & Hsessions2 & _).
  destruct image_bytes as [|b bs]; simpl in *.
  { subst detected_text. now destruct Hplate. }
  destruct (detect_text env (b :: bs)) as [ds|] eqn:Hrek;
    [|subst detected_text; now destruct Hplate].
  destruct (List.filter high_confidence_line ds) as [|item rest] eqn:Hfilter;
    [subst detected_text; now destruct Hplate|].
  subst detected_text. simpl in *.
  exists (b :: bs), ds, item. rewrite Haction.
  split; [reflexivity|]. split; [discriminate|]. split; [reflexivity|].
  split; [exact Hfree|]. split; [exact Hrek|].
  split; [exact (filter_head_first ds item rest Hfilter)|]. split; [exact Hplate|].
  split.
  - rewrite Hsessions2, lookup_insert_eq, Htick. unfold filename_of.
    rewrite Haction. reflexivity.
  - rewrite Htable2. apply lookup_insert_eq.
Qed.

Lemma open_gate_implies_witness :
  exists image_bytes ds item,
    decode_image (request "ENTRY" "aGVsbG8=") = inr image_bytes
    /\ image_bytes <> []
    /\ detect_text (env_at 1000 sample_detections) image_bytes = Some ds
    /\ first_confident_line ds item
    /\ TextDetection.DetectedText item <> "UNKNOWN".
Proof.
  destruct (open_gate_implies (env_at 1000 sample_detections)
              (request "ENTRY" "aGVsbG8=") (lot_with 30)
              (api_response 200 "OPEN_GATE")
              (snd (lambda_handler (env_at 1000 sample_detections)
                      (request "ENTRY" "aGVsbG8=") (lot_with 30))))
    as (image_bytes & ds & item & Hd & Hne & _ & _ & Hrek & Hfirst & Hknown & _).
  - vm_compute. reflexivity.
  - reflexivity.
  - exists image_bytes, ds, item. auto.
Defined.

(** ** 24. Edges of the stores *)

(** X14: only [handle_entry] creates the occupancy record.  After any
    [handle_entry] the record exists, so any later [handle_exit] is
    acknowledged; on a table that has no record yet, [handle_exit] raises the
    store's validation error at its first call, before any session lookup and
    any metrics push, and leaves every store as it was. *)
Theorem occupancy_record_is_created_by_entry env plate image_key w :
  is_Some (table (snd (handle_entry env plate image_key w)) !! "lot1")
  /\ (forall env' plate',
        fst (handle_exit env' plate' (snd (handle_entry env plate image_key w))) =
          inr {| statusCode := 200; body := "EXIT_SUCCESS" |})
  /\ (table w !! "lot1" = None ->
      exists w',
        handle_exit env plate w = (inl (ClientError "ValidationException"), w')
        /\ table w' = table w
        /\ logs_table w' = logs_table w
        /\ cloudwatch w' = cloudwatch w
        /\ calls w' = (calls w ++ [TableUpdateItem])%list).
Proof.
  destruct (handle_entry_cases env plate image_key w) as (w1 & Hentry & Hslots).
  rewrite Hentry. simpl. split; [eauto|]. split.
  - intros env' plate'.
    destruct (handle_exit_stored env' plate' w1 _ Hslots) as (w2 & -> & _).
    reflexivity.
  - intros Hnone. run. rewrite Hnone. finish.
Qed.

Lemma occupancy_record_is_created_by_entry_witness :
  table (snd (handle_entry (env_at 1000 []) "UNKNOWN" "error.jpg" fresh_world)) !! "lot1" =
    Some 30
  /\ exists w',
       handle_exit (env_at 1000 []) "ABC123" fresh_world =
         (inl (ClientError "ValidationException"), w')
       /\ table w' = table fresh_world
       /\ logs_table w' = logs_table fresh_world
       /\ cloudwatch w' = cloudwatch fresh_world
       /\ calls w' = (calls fresh_world ++ [TableUpdateItem])%list.
Proof.
  split; [reflexivity|].
  apply (proj2 (proj2 (occupancy_record_is_created_by_entry (env_at 1000 []) "ABC123"
                         "entry_1000.jpg" fresh_world))).
  reflexivity.
Defined.

(** X15: the debug image key has a resolution of one second.  Two uploads for
    the same action whose clock readings are the same second go to the same
    key, and the bucket keeps only the second image. *)
Theorem same_second_uploads_collide env1 env2 action image1 image2 w :
  image1 <> [] ->
  image2 <> [] ->
  s3_up env1 = true ->
  s3_up env2 = true ->
  clock env2 (S (tick w)) = clock env1 (tick w) ->
  let first := debug_storage env1 action image1 w in
  let second := debug_storage env2 action image2 (snd first) in
  fst first = inr (filename_of env1 action w)
  /\ fst second = fst first
  /\ s3 (snd second) !! filename_of env1 action w = Some image2.
Proof.
  intros Hne1 Hne2 Hup1 Hup2 Hclock first second. subst first second.
  unfold filename_of. run.
  destruct image1 as [|b1 bs1]; [now destruct Hne1|].
  destruct image2 as [|b2 bs2]; [now destruct Hne2|].
  simpl. rewrite Hup1. simpl. rewrite Hup2. simpl. rewrite Hclock.
  repeat split. apply lookup_insert_eq.
Qed.

Lemma same_second_uploads_collide_witness :
  s3 (snd (debug_storage (env_at 1000 []) "ENTRY" [2; 2]
             (snd (debug_storage (env_at 1000 []) "ENTRY" [1; 1; 1] fresh_world))))
    !! "entry_1000.jpg" = Some [2; 2].
Proof.
  pose proof (same_second_uploads_collide (env_at 1000 []) (env_at 1000 []) "ENTRY"
                [1; 1; 1] [2; 2] fresh_world) as H.
  cbv zeta in H. destruct H as (_ & _ & Hkey).
  - discriminate.
  - discriminate.
  - reflexivity.
  - reflexivity.
  - reflexivity.
  - exact Hkey.
Defined.

(** ** 25. The daily car count *)

Lemma metric_total_app name batches batch :
  metric_total name (batches ++ [batch]) =
    metric_total name batches + metric_total name [batch].
Proof.
  unfold metric_total. rewrite concat_app, List.filter_app, map_app. simpl.
  rewrite app_nil_r.
  induction (map Metric.Value (List.filter _ (concat batches))) as [|v vs IH];
    simpl; lia.
Qed.

(** What one invocation adds to the daily car count. *)
Lemma run_op_daily_count op w :
  cw_up (op_env op) = true ->
  metric_total "DailyCarCount" (cloudwatch (snd (run_op op w))) =
    metric_total "DailyCarCount" (cloudwatch w)
    + (if answered "OPEN_GATE" (fst (run_op op w)) then 1 else 0).
Proof.
  assert (forall env plate image_key w,
             cw_up env = true ->
             metric_total "DailyCarCount"
               (cloudwatch (snd (handle_entry env plate image_key w))) =
               metric_total "DailyCarCount" (cloudwatch w)
               + (if answered "OPEN_GATE" (fst (handle_entry env plate image_key w))
                  then 1 else 0)) as Hentry.
  { clear. intros env plate image_key w Hcw.
    destruct (handle_entry_effect env plate image_key w) as (w1 & -> & _ & Heffect).
    simpl. destruct (slots_seen w <=? 0)%Z; simpl in *.
    - destruct Heffect as (_ & _ & -> & _). lia.
    - destruct (String.eqb plate "UNKNOWN"); simpl in *.
      + destruct Heffect as (_ & _ & -> & _). lia.
      + destruct Heffect as (_ & _ & -> & _). rewrite Hcw, metric_total_app.
        reflexivity. }
  assert (forall env plate w,
             cw_up env = true ->
             metric_total "DailyCarCount" (cloudwatch (snd (handle_exit env plate w))) =
               metric_total "DailyCarCount" (cloudwatch w)
               + (if answered "OPEN_GATE" (fst (handle_exit env plate w))
                  then 1 else 0)) as Hexit.
  { clear. intros env plate w Hcw. destruct (table w !! "lot1") as [n|] eqn:Hn.
    - destruct (handle_exit_effect env plate w n Hn)
        as (w1 & duration & -> & _ & _ & _ & _ & Hcloudwatch).
      simpl. rewrite Hcloudwatch, Hcw, metric_total_app.
      destruct (0 <? duration)%Z; unfold metric_total; simpl; lia.
    - run. rewrite Hn. simpl. lia. }
  intros Hcw. destruct op as [env plate image_key | env plate | env event]; simpl in *.
  - now apply Hentry.
  - now apply Hexit.
  - destruct (decode_image event) as [e|image_bytes] eqn:Hdecode.
    + unfold lambda_handler. rewrite Hdecode. simpl. lia.
    + destruct (lambda_handler_decoded env event image_bytes w Hdecode)
        as (filename & detected_text & w1 & -> & _ & _ & Hcloudwatch & _).
      rewrite <- Hcloudwatch.
      destruct (String.eqb (action_of event) "ENTRY"); [now apply Hentry|].
      destruct (String.eqb (action_of event) "EXIT"); [now apply Hexit|].
      simpl. lia.
Qed.

(** X16: every admitted car is counted once.  Over any sequence of direct
    calls and whole requests during which CloudWatch answers, the values
    accepted under "DailyCarCount" grow by exactly the number of "OPEN_GATE"
    answers: denied, full, exit and rejected invocations add nothing. *)
Theorem daily_car_count_is_gates_opened ops w :
  Forall (fun op => cw_up (op_env op) = true) ops ->
  metric_total "DailyCarCount" (cloudwatch (snd (run_ops ops w))) =
    metric_total "DailyCarCount" (cloudwatch w)
    + count_answered "OPEN_GATE" (fst (run_ops ops w)).
Proof.
  intros Hops. revert w. induction Hops as [|op ops Hop _ IH]; intros w.
  - unfold count_answered. simpl. lia.
  - simpl. pose proof (run_op_daily_count op w Hop) as Hstep.
    destruct (run_op op w) as [result w1]. simpl in Hstep.
    specialize (IH w1). destruct (run_ops ops w1) as [results w2].
    simpl in *. unfold count_answered in *. simpl.
    destruct (answered "OPEN_GATE" result); simpl; lia.
Qed.

Lemma daily_car_count_is_gates_opened_witness :
  metric_total "DailyCarCount"
    (cloudwatch
       (snd (run_ops [OpEntry (env_at 1000 []) "AAA111" "entry_1000.jpg";
                      OpEntry (env_at 1001 []) "UNKNOWN" "error.jpg";
                      OpExit (env_at 1100 []) "AAA111";
                      OpEntry (env_at 1200 []) "BBB222" "entry_1200.jpg"]
               fresh_world))) = 2.
Proof.
  refine (daily_car_count_is_gates_opened
            [OpEntry (env_at 1000 []) "AAA111" "entry_1000.jpg";
             OpEntry (env_at 1001 []) "UNKNOWN" "error.jpg";
             OpExit (env_at 1100 []) "AAA111";
             OpEntry (env_at 1200 []) "BBB222" "entry_1200.jpg"] fresh_world _).
  repeat constructor.
Defined.

(** ** 26. The responses *)

(** X17: a failure inside a [try] never fails the request.  For an event whose
    headers are absent or a dictionary, and while the calls to the two tables
    that are outside a [try] go through, whatever the upload, the recognition,
    the session lookup and the metrics push do, the request is answered with
    one of six responses, 400 going with "IMAGE_DECODE_ERROR" and
    "INVALID_ACTION" and 200 with the other four, unless it is an EXIT on a
    table without the occupancy record. *)
Theorem lambda_handler_always_answers env event w :
  (action_of event = "EXIT" -> is_Some (table w !! "lot1")) ->
  exists response w',
    lambda_handler env event w = (inr response, w')
    /\ In response
         [ {| statusCode := 400; body := "IMAGE_DECODE_ERROR" |};
           {| statusCode := 200; body := "FULL" |};
           {| statusCode := 200; body := "DENIED_NO_TEXT" |};
           {| statusCode := 200; body := "OPEN_GATE" |};
           {| statusCode := 200; body := "EXIT_SUCCESS" |};
           {| statusCode := 400; body := "INVALID_ACTION" |} ].
Proof.
  intros Hstored.
  destruct (decode_image event) as [e|image_bytes] eqn:Hdecode.
  { unfold lambda_handler. rewrite Hdecode. eexists _, _.
    split; [reflexivity | now left]. }
  destruct (lambda_handler_decoded env event image_bytes w Hdecode)
    as (filename & detected_text & w1 & -> & Htable & _).
  destruct (String.eqb_spec (action_of event) "ENTRY") as [_|_].
  - destruct (handle_entry_cases env (plate_read_of detected_text) filename w1)
      as (w' & -> & _).
    eexists _, _. split; [reflexivity|].
    destruct (slots_seen w1 <=? 0)%Z; [right; now left|].
    destruct (String.eqb _ "UNKNOWN"); simpl; auto.
  - destruct (String.eqb_spec (action_of event) "EXIT") as [Hexit|_].
    + destruct (Hstored Hexit) as [n Hn]. rewrite <- Htable in Hn.
      destruct (handle_exit_stored env (plate_read_of detected_text) w1 n Hn)
        as (w' & -> & _).
      eexists _, _. split; [reflexivity|]. simpl. auto 10.
    + eexists _, _. split; [reflexivity|]. simpl. auto 10.
Qed.

Lemma lambda_handler_always_answers_witness :
  exists response w',
    lambda_handler
      {| clock := fun _ => 1000; strftime := fun _ => "2024-05-01 08:00:00";
         s3_up := false; detect_text := fun _ => None; logs_up := false;
         cw_up := false |}
      (request "EXIT" "aGVsbG8=") (lot_with_car 29 "ABC123" 1000) = (inr response, w')
    /\ In response
         [ {| statusCode := 400; body := "IMAGE_DECODE_ERROR" |};
           {| statusCode := 200; body := "FULL" |};
           {| statusCode := 200; body := "DENIED_NO_TEXT" |};
           {| statusCode := 200; body := "OPEN_GATE" |};
           {| statusCode := 200; body := "EXIT_SUCCESS" |};
           {| statusCode := 400; body := "INVALID_ACTION" |} ].
Proof.
  apply lambda_handler_always_answers.
  intros _. eexists. reflexivity.
Defined.
